(** * Seat monitor: the polling loop, its delta report and its command line

    A shallow embedding of [seat_monitor_app.js]: the [SeatMonitor] class
    ([fetchData], [checkSoldSeats], [start], [stop]) together with the event
    loop that drives it, and the command-line front end ([parseArguments],
    [main]).

    Conventions.
    - A JavaScript string is a [string] holding its UTF-8 bytes.
    - The sold-seat count is the result of the JMESPath function [length],
      an array length; it is carried as a [Z] and its arithmetic is exact.
    - What the outside world does (the HTTP exchange, the clock, the order in
      which timers and responses arrive) is an input of the model. *)

From Stdlib Require Import ZArith NArith List String Ascii Bool Lia.
From Stdlib Require Import DecimalString.
From Stdlib Require SpecFloat.
Import ListNotations.

Local Open Scope string_scope.
Local Open Scope list_scope.

(** ** JavaScript numbers and the built-ins used on the command line *)

Module JS.

(** The numbers the program reads from its command line.  [Decimal neg m e]
    is the Number obtained from the decimal literal of mathematical value
    (-1)^neg * m * 10^e. *)
Inductive Number :=
| NaN
| Infinity (neg : bool)
| Decimal (neg : bool) (m : N) (e : Z).

Definition chars (s : string) : list ascii := list_ascii_of_string s.

Definition code (c : ascii) : N := N_of_ascii c.

(** White space and line terminators (StrWhiteSpaceChar), as UTF-8 byte
    sequences: TAB, LF, VT, FF, CR, SP, NBSP, U+1680, U+2000..U+200A, U+2028,
    U+2029, U+202F, U+205F, U+3000, U+FEFF. *)
Definition white_space : list (list N) :=
  [ [9]; [10]; [11]; [12]; [13]; [32]; [194; 160]; [225; 154; 128];
    [226; 128; 128]; [226; 128; 129]; [226; 128; 130]; [226; 128; 131];
    [226; 128; 132]; [226; 128; 133]; [226; 128; 134]; [226; 128; 135];
    [226; 128; 136]; [226; 128; 137]; [226; 128; 138];
    [226; 128; 168]; [226; 128; 169]; [226; 128; 175]; [226; 129; 159];
    [227; 128; 128]; [239; 187; 191] ]%N.

Fixpoint strip_prefix (p : list N) (cs : list ascii) : option (list ascii) :=
  match p, cs with
  | [], _ => Some cs
  | b :: p', c :: cs' => if (code c =? b)%N then strip_prefix p' cs' else None
  | _ :: _, [] => None
  end.

Fixpoint strip_one (seqs : list (list N)) (cs : list ascii) : option (list ascii) :=
  match seqs with
  | [] => None
  | p :: seqs' =>
      match strip_prefix p cs with
      | Some r => Some r
      | None => strip_one seqs' cs
      end
  end.

Fixpoint strip_all (fuel : nat) (seqs : list (list N)) (cs : list ascii) : list ascii :=
  match fuel with
  | O => cs
  | S fuel' =>
      match strip_one seqs cs with
      | Some r => strip_all fuel' seqs r
      | None => cs
      end
  end.

Definition trim_start (cs : list ascii) : list ascii :=
  strip_all (List.length cs) white_space cs.

Definition trim_end (cs : list ascii) : list ascii :=
  rev (strip_all (List.length cs) (map (@rev N) white_space) (rev cs)).

Definition trim (cs : list ascii) : list ascii := trim_end (trim_start cs).

Definition is_digit (c : ascii) : bool := ((48 <=? code c) && (code c <=? 57))%N.

(** Value of a digit in a radix up to 16; [None] when [c] is not such a digit. *)
Definition digit_in (radix : N) (c : ascii) : option N :=
  let k := code c in
  let v := if ((48 <=? k) && (k <=? 57))%N then Some (k - 48)%N
           else if ((97 <=? k) && (k <=? 102))%N then Some (k - 87)%N
           else if ((65 <=? k) && (k <=? 70))%N then Some (k - 55)%N
           else None in
  match v with
  | Some d => if (d <? radix)%N then Some d else None
  | None => None
  end.

Fixpoint take_digits (cs : list ascii) : list ascii * list ascii :=
  match cs with
  | c :: cs' =>
      if is_digit c then let '(ds, r) := take_digits cs' in (c :: ds, r)
      else ([], cs)
  | [] => ([], [])
  end.

Fixpoint digits_value (radix : N) (ds : list ascii) (acc : N) : option N :=
  match ds with
  | [] => Some acc
  | c :: ds' =>
      match digit_in radix c with
      | Some d => digits_value radix ds' (acc * radix + d)%N
      | None => None
      end
  end.

Definition decimal_value (ds : list ascii) : N :=
  match digits_value 10 ds 0 with Some v => v | None => 0%N end.

(** ExponentPart at the head of [cs], when a complete one is there; otherwise
    nothing is consumed. *)
Definition scan_exponent (cs : list ascii) : Z * list ascii :=
  match cs with
  | c :: cs1 =>
      if ((code c =? 101) || (code c =? 69))%N then
        let '(neg, cs2) :=
          match cs1 with
          | s :: r => if (code s =? 43)%N then (false, r)
                      else if (code s =? 45)%N then (true, r)
                      else (false, cs1)
          | [] => (false, cs1)
          end in
        let '(ds, rest) := take_digits cs2 in
        match ds with
        | [] => (0%Z, cs)
        | _ :: _ =>
            let v := Z.of_N (decimal_value ds) in
            ((if neg then - v else v)%Z, rest)
        end
      else (0%Z, cs)
  | [] => (0%Z, cs)
  end.

Inductive Magnitude :=
| MInfinity
| MDecimal (m : N) (e : Z).

(** The longest prefix of [cs] that is a StrUnsignedDecimalLiteral. *)
Definition scan_unsigned (cs : list ascii) : option (Magnitude * list ascii) :=
  match strip_prefix (map code (chars "Infinity")) cs with
  | Some r => Some (MInfinity, r)
  | None =>
      let '(int_ds, r1) := take_digits cs in
      let no_point :=
        match int_ds with
        | [] => None
        | _ :: _ =>
            let '(x, r) := scan_exponent r1 in
            Some (MDecimal (decimal_value int_ds) x, r)
        end in
      match r1 with
      | c :: r2 =>
          if (code c =? 46)%N then
            let '(frac_ds, r3) := take_digits r2 in
            match int_ds, frac_ds with
            | [], [] => None
            | _, _ =>
                let '(x, r) := scan_exponent r3 in
                Some (MDecimal (decimal_value (int_ds ++ frac_ds))
                               (x - Z.of_nat (List.length frac_ds)), r)
            end
          else no_point
      | [] => no_point
      end
  end.

Definition signed (neg : bool) (m : Magnitude) : Number :=
  match m with
  | MInfinity => Infinity neg
  | MDecimal v e => Decimal neg v e
  end.

(** The longest prefix of [cs] that is a StrDecimalLiteral. *)
Definition scan_decimal (cs : list ascii) : option (Number * list ascii) :=
  let '(neg, body) :=
    match cs with
    | s :: r => if (code s =? 43)%N then (false, r)
                else if (code s =? 45)%N then (true, r)
                else (false, cs)
    | [] => (false, cs)
    end in
  match scan_unsigned body with
  | Some (m, rest) => Some (signed neg m, rest)
  | None => None
  end.

(** NonDecimalIntegerLiteral: 0x, 0o, 0b followed by digits of that radix. *)
Definition scan_radix (cs : list ascii) : option N :=
  match cs with
  | z :: p :: d :: ds =>
      if (code z =? 48)%N then
        let k := code p in
        let radix := if ((k =? 120) || (k =? 88))%N then Some 16%N
                     else if ((k =? 111) || (k =? 79))%N then Some 8%N
                     else if ((k =? 98) || (k =? 66))%N then Some 2%N
                     else None in
        match radix with
        | Some r => digits_value r (d :: ds) 0
        | None => None
        end
      else None
  | _ => None
  end.

(** [parseFloat(s)] for a string [s]. *)
Definition parseFloat (s : string) : Number :=
  match scan_decimal (trim_start (chars s)) with
  | Some (v, _) => v
  | None => NaN
  end.

(** [Number(s)] for a string [s] (StringToNumber). *)
Definition ToNumber (s : string) : Number :=
  match trim (chars s) with
  | [] => Decimal false 0 0
  | cs =>
      match scan_decimal cs with
      | Some (v, []) => v
      | _ =>
          match scan_radix cs with
          | Some n => Decimal false n 0
          | None => NaN
          end
      end
  end.

(** The global [isNaN(s)] applied to a string: it converts with [Number]. *)
Definition isNaN (s : string) : bool :=
  match ToNumber s with
  | NaN => true
  | _ => false
  end.

(** A positive literal so small that its binary64 value is +0: the literal
    is at most 2^-1075, half the least positive binary64 value. *)
Definition underflows (m : N) (e : Z) : bool :=
  ((e <? 0)%Z && (m * 2 ^ 1075 <=? 10 ^ Z.to_N (- e))%N).

(** [x <= 0]. *)
Definition le0 (x : Number) : bool :=
  match x with
  | NaN => false
  | Infinity neg => neg
  | Decimal neg m e => (m =? 0)%N || neg || underflows m e
  end.

(** The binary64 value of a Number: a decimal literal is rounded once, to
    nearest with ties to even; precision 53, largest exponent 1024. *)
Definition binary64 (x : Number) : SpecFloat.spec_float :=
  match x with
  | NaN => SpecFloat.S754_nan
  | Infinity neg => SpecFloat.S754_infinity neg
  | Decimal neg N0 _ => SpecFloat.S754_zero neg
  | Decimal neg (Npos p) e =>
      if (0 <=? e)%Z then
        SpecFloat.binary_round 53 1024 neg (p * Z.to_pos (10 ^ e)) 0
      else
        SpecFloat.SFdiv 53 1024 (SpecFloat.S754_finite neg p 0)
          (SpecFloat.S754_finite false (Z.to_pos (10 ^ (- e))) 0)
  end.

(** A binary64 value written out exactly in decimal: m * 2^e is
    (m * 5^-e) * 10^e when e is negative. *)
Definition decimal_of (f : SpecFloat.spec_float) : Number :=
  match f with
  | SpecFloat.S754_nan => NaN
  | SpecFloat.S754_infinity s => Infinity s
  | SpecFloat.S754_zero s => Decimal s 0 0
  | SpecFloat.S754_finite s m e =>
      if (0 <=? e)%Z then Decimal s (Npos m * 2 ^ Z.to_N e) 0
      else Decimal s (Npos m * 5 ^ Z.to_N (- e)) e
  end.

(** m1 * 10^e1 = m2 * 10^e2 *)
Definition same_decimal (m1 : N) (e1 : Z) (m2 : N) (e2 : Z) : bool :=
  let e := Z.min e1 e2 in
  (m1 * 10 ^ Z.to_N (e1 - e) =? m2 * 10 ^ Z.to_N (e2 - e))%N.

(** [x * k] for a non-negative integer constant [k]: the binary64 product of
    the binary64 values of [x] and [k], rounded to nearest.  When that product
    is the exact product it is written with the digits of the literal,
    m * k and the same exponent; otherwise it is written out exactly. *)
Definition times (x : Number) (k : N) : Number :=
  let product :=
    decimal_of (SpecFloat.SFmul 53 1024 (binary64 x) (binary64 (Decimal false k 0))) in
  match x, product with
  | Decimal neg m e, Decimal neg' m' e' =>
      if Bool.eqb neg neg' && same_decimal (m * k) e m' e'
      then Decimal neg (m * k) e
      else product
  | _, _ => product
  end.

(** Decimal digits of a non-negative integer. *)
Definition digits (n : N) : string := NilZero.string_of_uint (N.to_uint n).

(** [String(z)] for an integral Number [z] in the range of array lengths. *)
Definition toString (z : Z) : string :=
  if (z <? 0)%Z then "-" ++ digits (Z.abs_N z) else digits (Z.to_N z).

End JS.

(** ** Constants of the program *)

Definition DEFAULT_INTERVAL : JS.Number := JS.Decimal false 5 0.

Definition API_URL : string :=
  "https://booking-service.services.ditix.app/api/public/v1.0/event/prices/?id=3249d4cb-c92b-4c68-bbb3-6a6213b7cbaf&publicKey=e16be350-4367-48d7-861d-00f4645b3cba".

Definition JMESPATH_EXPRESSION : string := "length(seats[?@[3] == `SOLD`])".

Definition newline : string := String "010" "".

(** ** What the program prints and what it raises *)

(** One call of [console.log] or [console.error].  [ConsoleLogInterval m] is
    the banner line "Check interval: m minute(s)" of [start]; it keeps the
    number [m] instead of its decimal rendering. *)
Inductive Output :=
| ConsoleLog (s : string)
| ConsoleLogInterval (minutes : JS.Number)
| ConsoleError (s : string).

(** A JavaScript [Error] object. *)
Record Exception := mkError { message : string }.

Inductive Completion (A : Type) :=
| Normal (a : A)
| Throw (e : Exception).
Arguments Normal {A} a.
Arguments Throw {A} e.

(** ** The object *)

(** Handle returned by [setTimeout]. *)
Definition Timeout := nat.

Record SeatMonitor := mkSeatMonitor {
  intervalMinutes : JS.Number;
  intervalMs : JS.Number;
  isRunning : bool;
  timeoutId : option Timeout;
  previousSoldCount : option Z
}.

(** [constructor(intervalMinutes = DEFAULT_INTERVAL)] *)
Definition new_SeatMonitor (minutes : JS.Number) : SeatMonitor :=
  {| intervalMinutes := minutes;
     intervalMs := JS.times (JS.times minutes 60) 1000;
     isRunning := false;
     timeoutId := None;
     previousSoldCount := None |}.

Definition set_isRunning (b : bool) (this : SeatMonitor) : SeatMonitor :=
  {| intervalMinutes := intervalMinutes this;
     intervalMs := intervalMs this;
     isRunning := b;
     timeoutId := timeoutId this;
     previousSoldCount := previousSoldCount this |}.

Definition set_timeoutId (t : option Timeout) (this : SeatMonitor) : SeatMonitor :=
  {| intervalMinutes := intervalMinutes this;
     intervalMs := intervalMs this;
     isRunning := isRunning this;
     timeoutId := t;
     previousSoldCount := previousSoldCount this |}.

Definition set_previousSoldCount (v : option Z) (this : SeatMonitor) : SeatMonitor :=
  {| intervalMinutes := intervalMinutes this;
     intervalMs := intervalMs this;
     isRunning := isRunning this;
     timeoutId := timeoutId this;
     previousSoldCount := v |}.

(** ** Method bodies: state, console and exceptions *)

(** A computation inside a method: it reads and writes [this], prints, and
    ends normally or by throwing.  What was written and printed before a
    throw stays. *)
Definition M (A : Type) : Type :=
  SeatMonitor -> Completion A * SeatMonitor * list Output.

Definition ret {A} (a : A) : M A := fun this => (Normal a, this, []).

Definition bind {A B} (c : M A) (k : A -> M B) : M B :=
  fun this =>
    match c this with
    | (Normal a, this1, out1) =>
        let '(r, this2, out2) := k a this1 in (r, this2, out1 ++ out2)
    | (Throw e, this1, out1) => (Throw e, this1, out1)
    end.

Notation "x <- c ;; k" := (bind c (fun x => k))
  (at level 61, c at next level, right associativity).
Notation "c ;;; k" := (bind c (fun _ => k))
  (at level 61, right associativity).

Definition throw {A} (e : Exception) : M A := fun this => (Throw e, this, []).

Definition console_log (s : string) : M unit :=
  fun this => (Normal tt, this, [ConsoleLog s]).

Definition console_error (s : string) : M unit :=
  fun this => (Normal tt, this, [ConsoleError s]).

Definition get_this : M SeatMonitor := fun this => (Normal this, this, []).

Definition assign_previousSoldCount (v : Z) : M unit :=
  fun this => (Normal tt, set_previousSoldCount (Some v) this, []).

(** [try { body } catch (error) { handler }] *)
Definition try_catch {A} (body : M A) (handler : Exception -> M A) : M A :=
  fun this =>
    match body this with
    | (Normal a, this1, out1) => (Normal a, this1, out1)
    | (Throw e, this1, out1) =>
        let '(r, this2, out2) := handler e this1 in (r, this2, out1 ++ out2)
    end.

(** ** One HTTP exchange, as the world decides it *)

(** A parsed JSON document.  The program does one thing with it: it hands it
    to [jmespath.search] with [JMESPATH_EXPRESSION].  A document is therefore
    represented by what that call does on it: [length] returns the number of
    matching seats, or the evaluation throws. *)
Inductive Document :=
| Length (n : Z)
| SearchThrows (msg : string).

(** What [JSON.parse(data)] does on the body received. *)
Inductive Body :=
| Json (doc : Document)
| NotJson (msg : string).

(** The first of the three listeners of [fetchData] to run: the response's
    'end', the request's 'error', or the timeout.  These are the exchanges
    that settle the promise; the ones in which no listener runs are the other
    cases of [Transfer] below. *)
Inductive Exchange :=
| ResponseEnd (body : Body)
| RequestError (msg : string)
| RequestTimeout.

(** [fetchData()]: how the promise settles; a rejection is a [Throw]. *)
Definition fetchData (x : Exchange) : Completion Document :=
  match x with
  | ResponseEnd (Json jsonData) => Normal jsonData
  | ResponseEnd (NotJson msg) => Throw (mkError ("Failed to parse JSON: " ++ msg))
  | RequestError msg => Throw (mkError ("Request failed: " ++ msg))
  | RequestTimeout => Throw (mkError "Request timeout")
  end.

(** [await p] *)
Definition await {A} (p : Completion A) : M A := fun this => (p, this, []).

(** [jmespath.search(data, JMESPATH_EXPRESSION)] *)
Definition jmespath_search (data : Document) : M Z :=
  match data with
  | Length n => ret n
  | SearchThrows msg => throw (mkError msg)
  end.

(** ** checkSoldSeats *)

Definition changeText (change : Z) : string :=
  if (change >? 0)%Z then "(+" ++ JS.toString change ++ ")"
  else if (change <? 0)%Z then "(" ++ JS.toString change ++ ")"
  else "(no change)".

(** The statements of the [try] block that follow the [await]. *)
Definition report (timestamp : string) (data : Document) : M unit :=
  soldCount <- jmespath_search data ;;
  this <- get_this ;;
  match previousSoldCount this with
  | Some previous =>
      let change := (soldCount - previous)%Z in
      console_log ("[" ++ timestamp ++ "] Sold seats: " ++ JS.toString soldCount
                   ++ " " ++ changeText change)
  | None =>
      console_log ("[" ++ timestamp ++ "] Sold seats: " ++ JS.toString soldCount)
  end ;;;
  assign_previousSoldCount soldCount.

Definition on_error (timestamp : string) (error : Exception) : M unit :=
  console_error ("[" ++ timestamp ++ "] Error: " ++ message error).

(** The whole method, given the clock reading and the exchange it meets. *)
Definition checkSoldSeats (timestamp : string) (x : Exchange) : M unit :=
  try_catch
    (console_log ("[" ++ timestamp ++ "] Checking sold seats...") ;;;
     data <- await (fetchData x) ;;
     report timestamp data)
    (on_error timestamp).

(** The method is suspended once, at [await this.fetchData()].  The part run
    by the caller before the suspension: *)
Definition checkSoldSeats_begin (timestamp : string) : M unit :=
  console_log ("[" ++ timestamp ++ "] Checking sold seats...").

(** The part run when the promise of [fetchData] settles. *)
Definition checkSoldSeats_resume (timestamp : string) (x : Exchange) : M unit :=
  try_catch
    (data <- await (fetchData x) ;;
     report timestamp data)
    (on_error timestamp).

(** ** The event loop around the object *)

Inductive Process :=
| Alive
| Exited (code : Z).

(** The monitor, the timers armed and not yet fired or cleared, the calls of
    [checkSoldSeats] suspended at their [await] (each with its number and the
    timestamp it captured), and everything printed so far.  [nextCheck] counts
    the calls of [checkSoldSeats] made so far. *)
Record World := mkWorld {
  monitor : SeatMonitor;
  timers : list Timeout;
  inflight : list (nat * string);
  console : list Output;
  nextTimeout : Timeout;
  nextCheck : nat;
  process : Process
}.

Definition with_monitor (this : SeatMonitor) (w : World) : World :=
  mkWorld this (timers w) (inflight w) (console w) (nextTimeout w) (nextCheck w)
          (process w).

Definition with_timers (ts : list Timeout) (w : World) : World :=
  mkWorld (monitor w) ts (inflight w) (console w) (nextTimeout w) (nextCheck w)
          (process w).

Definition with_inflight (cs : list (nat * string)) (w : World) : World :=
  mkWorld (monitor w) (timers w) cs (console w) (nextTimeout w) (nextCheck w)
          (process w).

Definition print (out : list Output) (w : World) : World :=
  mkWorld (monitor w) (timers w) (inflight w) (console w ++ out) (nextTimeout w)
          (nextCheck w) (process w).

Definition with_process (p : Process) (w : World) : World :=
  mkWorld (monitor w) (timers w) (inflight w) (console w) (nextTimeout w)
          (nextCheck w) p.

(** A fresh process holding [new SeatMonitor(minutes)]. *)
Definition boot (minutes : JS.Number) : World :=
  mkWorld (new_SeatMonitor minutes) [] [] [] 0 0 Alive.

(** [setTimeout(callback, this.intervalMs)]: a new handle, armed. *)
Definition setTimeout (w : World) : Timeout * World :=
  let t := nextTimeout w in
  (t, mkWorld (monitor w) (timers w ++ [t]) (inflight w) (console w) (S t)
              (nextCheck w) (process w)).

(** [clearTimeout(t)]: nothing happens when [t] has fired or was cleared. *)
Definition clearTimeout (t : Timeout) (w : World) : World :=
  with_timers (remove Nat.eq_dec t (timers w)) w.

(** A caller reaches [await this.checkSoldSeats()]: the method runs up to its
    own [await] and is parked there. *)
Definition call_checkSoldSeats (now : string) (w : World) : World :=
  let '(_, this, out) := checkSoldSeats_begin now (monitor w) in
  mkWorld this (timers w) (inflight w ++ [(nextCheck w, now)]) (console w ++ out)
          (nextTimeout w) (S (nextCheck w)) (process w).

(** The closure [scheduleNext] of [start]. *)
Definition scheduleNext (w : World) : World :=
  if isRunning (monitor w) then
    let '(t, w1) := setTimeout w in
    with_monitor (set_timeoutId (Some t) (monitor w1)) w1
  else w.

Definition banner (this : SeatMonitor) : list Output :=
  [ ConsoleLog "🎫 MTV Braunschweig - Starting ticket monitor...";
    ConsoleLog ("📊 Monitoring URL: " ++ API_URL);
    ConsoleLogInterval (intervalMinutes this);
    ConsoleLog ("🔍 JMESPath expression: " ++ JMESPATH_EXPRESSION);
    ConsoleLog ("⏹️  Press Ctrl+C to stop" ++ newline) ].

(** [start()], up to its [await].  What follows the [await] is [resume]. *)
Definition start (now : string) (w : World) : World :=
  if isRunning (monitor w) then
    print [ConsoleLog "Monitor is already running"] w
  else
    let w1 := with_monitor (set_isRunning true (monitor w)) w in
    let w2 := print (banner (monitor w1)) w1 in
    call_checkSoldSeats now w2.

(** [stop()] *)
Definition stop (w : World) : World :=
  if negb (isRunning (monitor w)) then w
  else
    let w1 := with_monitor (set_isRunning false (monitor w)) w in
    let w2 :=
      match timeoutId (monitor w1) with
      | Some t =>
          let w' := clearTimeout t w1 in
          with_monitor (set_timeoutId None (monitor w')) w'
      | None => w1
      end in
    print [ConsoleLog (newline ++ "🛑 Monitor stopped")] w2.

Fixpoint lookup (c : nat) (cs : list (nat * string)) : option string :=
  match cs with
  | [] => None
  | (c', ts) :: cs' => if Nat.eqb c c' then Some ts else lookup c cs'
  end.

Fixpoint forget (c : nat) (cs : list (nat * string)) : list (nat * string) :=
  match cs with
  | [] => []
  | (c', ts) :: cs' => if Nat.eqb c c' then cs' else (c', ts) :: forget c cs'
  end.

(** The promise awaited by call [c] of [checkSoldSeats] settles with [x]: the
    method runs to its end and its caller goes on with [scheduleNext()].  Both
    callers, [start] and the timer callback, continue that way.  An exception
    leaving the method would reject the caller's promise and end the
    process with status 1. *)
Definition resume (c : nat) (x : Exchange) (w : World) : World :=
  match lookup c (inflight w) with
  | None => w
  | Some timestamp =>
      let w1 := with_inflight (forget c (inflight w)) w in
      match checkSoldSeats_resume timestamp x (monitor w1) with
      | (Normal _, this, out) => scheduleNext (print out (with_monitor this w1))
      | (Throw _, this, out) =>
          with_process (Exited 1) (print out (with_monitor this w1))
      end
  end.

(** The timer [t] fires: its callback calls [checkSoldSeats]. *)
Definition fire (t : Timeout) (now : string) (w : World) : World :=
  if existsb (Nat.eqb t) (timers w) then
    call_checkSoldSeats now (with_timers (remove Nat.eq_dec t (timers w)) w)
  else w.

(** The SIGINT and SIGTERM handlers of [main]. *)
Definition signal (w : World) : World := with_process (Exited 0) (stop w).

Inductive Event :=
| CallStart (now : string)
| CallStop
| TimerFires (t : Timeout) (now : string)
| CheckSettles (c : nat) (x : Exchange)
| Signal.

Definition step (w : World) (e : Event) : World :=
  match process w with
  | Exited _ => w
  | Alive =>
      match e with
      | CallStart now => start now w
      | CallStop => stop w
      | TimerFires t now => fire t now w
      | CheckSettles c x => resume c x w
      | Signal => signal w
      end
  end.

Definition run (w : World) (es : list Event) : World := fold_left step es w.

(** ** The command line *)

(** A function that may end the process ([process.exit]) instead of
    returning.  [out] is what it printed before that. *)
Inductive Exit (A : Type) :=
| Returns (a : A)
| ProcessExit (code : Z) (out : list Output).
Arguments Returns {A} a.
Arguments ProcessExit {A} code out.

Definition unlines (ls : list string) : string := String.concat newline ls.

(** The text printed by [showHelp()]. *)
Definition helpText : string :=
  unlines
    [ "";
      "🎫 Seat Monitor - Track sold seats for events";
      "";
      "Usage: node seat-monitor.js [options]";
      "";
      "Options:";
      "  -i, --interval <minutes>    Check interval in minutes (default: 5)";
      "  -h, --help                  Show this help message";
      "";
      "Examples:";
      "  node seat-monitor.js                    # Check every 5 minutes (default)";
      "  node seat-monitor.js --interval 2       # Check every 2 minutes";
      "  node seat-monitor.js -i 0.5             # Check every 30 seconds";
      "";
      "The monitor tracks sold seats using the JMESPath expression:";
      JMESPATH_EXPRESSION;
      "";
      "Press Ctrl+C to stop the monitor.";
      "" ].

Definition is_help (arg : string) : bool :=
  (arg =? "--help")%string || (arg =? "-h")%string.

Definition is_interval (arg : string) : bool :=
  (arg =? "--interval")%string || (arg =? "-i")%string.

Definition not_numeric : list Output :=
  [ConsoleError "Error: --interval requires a numeric value (minutes)"].

Definition not_positive : list Output :=
  [ConsoleError "Error: Interval must be greater than 0"].

(** The [for] loop of [parseArguments], from the position whose remaining
    arguments are [args]; consuming the value of an interval flag skips it. *)
Fixpoint scan_arguments (args : list string) (minutes : JS.Number)
  : Exit JS.Number :=
  match args with
  | [] => Returns minutes
  | arg :: rest =>
      if is_help arg then ProcessExit 0 [ConsoleLog helpText]
      else if is_interval arg then
        match rest with
        | [] => ProcessExit 1 not_numeric
        | nextArg :: rest' =>
            if (nextArg =? "")%string || JS.isNaN nextArg then
              ProcessExit 1 not_numeric
            else
              let parsed := JS.parseFloat nextArg in
              if JS.le0 parsed then ProcessExit 1 not_positive
              else scan_arguments rest' parsed
        end
      else scan_arguments rest minutes
  end.

(** [parseArguments()], on [args = process.argv.slice(2)]. *)
Definition parseArguments (args : list string) : Exit JS.Number :=
  scan_arguments args DEFAULT_INTERVAL.

(** [main()]: either the process ends in [parseArguments], or a monitor is
    built and started.  The signal handlers it installs are the event
    [Signal]. *)
Inductive Launch :=
| Halted (code : Z) (out : list Output)
| Monitoring (w : World).

Definition main (args : list string) (now : string) : Launch :=
  match parseArguments args with
  | ProcessExit code out => Halted code out
  | Returns minutes => Monitoring (start now (boot minutes))
  end.

(** ** Vocabulary of the statements *)

(** An exchange on which a check succeeds with count [n]. *)
Definition found (n : Z) : Exchange := ResponseEnd (Json (Length n)).

(** The count a check obtains from an exchange, when it obtains one. *)
Definition metric (x : Exchange) : option Z :=
  match x with
  | ResponseEnd (Json (Length n)) => Some n
  | _ => None
  end.

(** The events that do not complete a check successfully. *)
Definition no_success (e : Event) : bool :=
  match e with
  | CheckSettles _ x => match metric x with Some _ => false | None => true end
  | _ => true
  end.

Definition not_start (e : Event) : bool :=
  match e with
  | CallStart _ => false
  | _ => true
  end.

(** [start()] called on a stopped monitor while a check begun earlier is
    still suspended at its [await]. *)
Definition restarts_mid_check (w : World) (e : Event) : bool :=
  match e with
  | CallStart _ =>
      negb (isRunning (monitor w)) && negb (Nat.eqb (List.length (inflight w)) 0)
  | _ => false
  end.

(** Event sequences in which that never happens. *)
Fixpoint orderly (w : World) (es : list Event) : bool :=
  match es with
  | [] => true
  | e :: es' => negb (restarts_mid_check w e) && orderly (step w e) es'
  end.

(** Every armed timer is the one the monitor holds in [timeoutId], and a
    timer and a suspended check never coexist. *)
Definition tidy (w : World) : Prop :=
  (List.length (timers w) + List.length (inflight w) <= 1)%nat
  /\ forall t, In t (timers w) ->
       isRunning (monitor w) = true /\ timeoutId (monitor w) = Some t.

(** The value of an interval flag that [parseArguments] refuses: missing,
    empty, not numeric for [isNaN], or parsed by [parseFloat] to a number
    that is not above zero. *)
Definition refused (rest : list string) : bool :=
  match rest with
  | [] => true
  | nextArg :: _ =>
      (nextArg =? "")%string || JS.isNaN nextArg || JS.le0 (JS.parseFloat nextArg)
  end.

(** The opening line of a check and the line of a successful one. *)
Definition checking_line (ts : string) : Output :=
  ConsoleLog ("[" ++ ts ++ "] Checking sold seats...").

Definition sold_line (ts : string) (previous : option Z) (n : Z) : Output :=
  match previous with
  | Some p =>
      ConsoleLog ("[" ++ ts ++ "] Sold seats: " ++ JS.toString n ++ " "
                  ++ changeText (n - p))
  | None => ConsoleLog ("[" ++ ts ++ "] Sold seats: " ++ JS.toString n)
  end.

(** The message of the exception a failing exchange raises in the [try]:
    the rejection built by [fetchData], or what [jmespath.search] throws. *)
Definition failure_message (x : Exchange) : string :=
  match x with
  | ResponseEnd (Json (Length _)) => ""
  | ResponseEnd (Json (SearchThrows msg)) => msg
  | ResponseEnd (NotJson msg) => "Failed to parse JSON: " ++ msg
  | RequestError msg => "Request failed: " ++ msg
  | RequestTimeout => "Request timeout"
  end.

(** The monitor and the console after a whole call of [checkSoldSeats]. *)
Definition after_check (ts : string) (x : Exchange) (this : SeatMonitor)
  : SeatMonitor := snd (fst (checkSoldSeats ts x this)).

Definition printed_by_check (ts : string) (x : Exchange) (this : SeatMonitor)
  : list Output := snd (checkSoldSeats ts x this).

(** The shutdown notice of [stop()]. *)
Definition stopped_notice : Output := ConsoleLog (newline ++ "🛑 Monitor stopped").

(** The events other than a termination signal. *)
Definition not_signal (e : Event) : bool :=
  match e with
  | Signal => false
  | _ => true
  end.

(** An argument that [parseArguments] does not recognise. *)
Definition unrecognised (arg : string) : bool :=
  negb (is_help arg) && negb (is_interval arg).

(** What a settled check prints: the count line, or the error line. *)
Definition result_line (ts : string) (previous : option Z) (x : Exchange)
  : Output :=
  match metric x with
  | Some n => sold_line ts previous n
  | None => ConsoleError ("[" ++ ts ++ "] Error: " ++ failure_message x)
  end.

(** What a settled check leaves in [previousSoldCount]. *)
Definition stored_after (previous : option Z) (x : Exchange) : option Z :=
  match metric x with
  | Some n => Some n
  | None => previous
  end.

(** How many things the event loop still has to deliver to the monitor:
    armed timers and suspended checks. *)
Definition pending (w : World) : nat :=
  (List.length (timers w) + List.length (inflight w))%nat.

(** ** Responses that settle nothing *)

(** How the HTTP exchange of one [fetchData] call can end.  [fetchData]
    listens to 'data' and 'end' on the response and to 'error' and the timeout
    on the request, and to nothing else.
    - [Settles x]: one of the three settling listeners runs, as [x] says.
    - [ClosedMidBody]: the response headers have arrived and the connection
      is closed before the body ends.  The response emits 'aborted', 'error'
      and 'close'; no listener is registered for them, the request emits no
      'error' and its socket is gone, so the timeout does not fire either.
    - [BodyTooLong]: [data += chunk] passes the largest string length and
      throws a RangeError inside the 'data' listener, outside the promise
      executor and outside every [try]. *)
Inductive Transfer :=
| Settles (x : Exchange)
| ClosedMidBody
| BodyTooLong.

(** What becomes of the promise returned by [fetchData()]. *)
Inductive Fate :=
| PromiseSettled (c : Completion Document)
| PromisePending
| Uncaught (e : Exception).

Definition fetchData_fate (t : Transfer) : Fate :=
  match t with
  | Settles x => PromiseSettled (fetchData x)
  | ClosedMidBody => PromisePending
  | BodyTooLong => Uncaught (mkError "Invalid string length")
  end.

(** The event loop together with the suspended checks whose promise is known
    never to settle. *)
Record Runtime := mkRuntime {
  world : World;
  lost : list nat
}.

Definition launch (minutes : JS.Number) : Runtime := mkRuntime (boot minutes) [].

Definition is_lost (c : nat) (r : Runtime) : bool := existsb (Nat.eqb c) (lost r).

(** The exchange of the suspended check [c] ends as [t].  A settled promise
    resumes the check; a pending one leaves it suspended for good; an
    uncaught exception ends the process with status 1. *)
Definition transfer_ends (c : nat) (t : Transfer) (r : Runtime) : Runtime :=
  match lookup c (inflight (world r)) with
  | None => r
  | Some _ =>
      if is_lost c r then r
      else
        match t with
        | Settles x => mkRuntime (resume c x (world r)) (lost r)
        | ClosedMidBody => mkRuntime (world r) (c :: lost r)
        | BodyTooLong => mkRuntime (with_process (Exited 1) (world r)) (lost r)
        end
  end.

Inductive Happening :=
| Delivers (e : Event)
| Ends (c : nat) (t : Transfer).

Definition happen (r : Runtime) (h : Happening) : Runtime :=
  match process (world r) with
  | Exited _ => r
  | Alive =>
      match h with
      | Delivers (CheckSettles c x) => transfer_ends c (Settles x) r
      | Delivers e => mkRuntime (step (world r) e) (lost r)
      | Ends c t => transfer_ends c t r
      end
  end.

Definition happens (r : Runtime) (hs : list Happening) : Runtime :=
  fold_left happen hs r.

(** Anything but a call of [start()] or [stop()] or a signal. *)
Definition undisturbed (h : Happening) : bool :=
  match h with
  | Delivers (CallStart _) => false
  | Delivers CallStop => false
  | Delivers Signal => false
  | _ => true
  end.

(** * Properties *)

(** ** One check cycle *)

Section Cycle.

Variables (timestamp : string) (this : SeatMonitor).

Lemma checkSoldSeats_split (x : Exchange) :
  checkSoldSeats timestamp x this
  = (checkSoldSeats_begin timestamp ;;; checkSoldSeats_resume timestamp x) this.
Proof.
  unfold checkSoldSeats, checkSoldSeats_begin, checkSoldSeats_resume,
    try_catch, bind, console_log, await.
  destruct (fetchData x) as [data | e]; cbn.
  - destruct (report timestamp data this) as [[[u | e] this1] out1];
      reflexivity.
  - reflexivity.
Qed.

Lemma resume_found (n : Z) :
  checkSoldSeats_resume timestamp (found n) this
  = (Normal tt, set_previousSoldCount (Some n) this,
     [sold_line timestamp (previousSoldCount this) n]).
Proof.
  unfold checkSoldSeats_resume, try_catch, bind, await, report, sold_line.
  cbn. destruct (previousSoldCount this); reflexivity.
Qed.

Lemma resume_failed (x : Exchange) :
  metric x = None ->
  checkSoldSeats_resume timestamp x this
  = (Normal tt, this,
     [ConsoleError ("[" ++ timestamp ++ "] Error: " ++ failure_message x)]).
Proof.
  destruct x as [[[n | msg] | msg] | msg | ]; cbn; try discriminate;
    reflexivity.
Qed.

Lemma metric_found (x : Exchange) (n : Z) : metric x = Some n -> x = found n.
Proof.
  destruct x as [[[m | msg] | msg] | msg | ]; cbn; try discriminate.
  now intros [= ->].
Qed.

(** Whatever the exchange, the second half of the method ends normally. *)
Lemma resume_normal (x : Exchange) :
  exists this' out,
    checkSoldSeats_resume timestamp x this = (Normal tt, this', out)
    /\ previousSoldCount this'
       = match metric x with
         | Some n => Some n
         | None => previousSoldCount this
         end
    /\ isRunning this' = isRunning this
    /\ timeoutId this' = timeoutId this.
Proof.
  destruct (metric x) as [n |] eqn:Hm.
  - apply metric_found in Hm; subst x. rewrite resume_found.
    eexists _, _; repeat split.
  - rewrite (resume_failed x Hm). eexists _, _; repeat split.
Qed.

End Cycle.

(** ** Steps of the event loop *)

Lemma step_exited (w : World) (e : Event) (code : Z) :
  process w = Exited code -> step w e = w.
Proof. intros H. unfold step. now rewrite H. Qed.

Lemma run_app (w : World) (es1 es2 : list Event) :
  run w (es1 ++ es2) = run (run w es1) es2.
Proof. apply fold_left_app. Qed.

Lemma scheduleNext_console (w : World) : console (scheduleNext w) = console w.
Proof. unfold scheduleNext. destruct (isRunning (monitor w)); reflexivity. Qed.

Lemma scheduleNext_previous (w : World) :
  previousSoldCount (monitor (scheduleNext w)) = previousSoldCount (monitor w).
Proof. unfold scheduleNext. destruct (isRunning (monitor w)); reflexivity. Qed.

Lemma scheduleNext_process (w : World) : process (scheduleNext w) = process w.
Proof. unfold scheduleNext. destruct (isRunning (monitor w)); reflexivity. Qed.

(** A suspended check that settles: the world after it. *)
Lemma resume_settles (w : World) (c : nat) (ts : string) (x : Exchange) :
  lookup c (inflight w) = Some ts ->
  exists this out,
    checkSoldSeats_resume ts x (monitor w) = (Normal tt, this, out)
    /\ resume c x w
       = scheduleNext
           (print out (with_monitor this (with_inflight (forget c (inflight w)) w))).
Proof.
  intros Hl. unfold resume. rewrite Hl. cbn.
  destruct (resume_normal ts (monitor w) x) as (this & out & Heq & _).
  exists this, out. split; [exact Heq |]. now rewrite Heq.
Qed.

Lemma stop_previous (w : World) :
  previousSoldCount (monitor (stop w)) = previousSoldCount (monitor w).
Proof.
  unfold stop. destruct (isRunning (monitor w)); cbn; [| reflexivity].
  destruct (timeoutId (monitor w)); reflexivity.
Qed.

Lemma start_previous (now : string) (w : World) :
  previousSoldCount (monitor (start now w)) = previousSoldCount (monitor w).
Proof. unfold start. destruct (isRunning (monitor w)); reflexivity. Qed.

Lemma fire_previous (t : Timeout) (now : string) (w : World) :
  previousSoldCount (monitor (fire t now w)) = previousSoldCount (monitor w).
Proof. unfold fire. destruct (existsb _ _); reflexivity. Qed.

Lemma resume_previous (c : nat) (x : Exchange) (w : World) :
  previousSoldCount (monitor (resume c x w))
  = match lookup c (inflight w), metric x with
    | Some _, Some n => Some n
    | _, _ => previousSoldCount (monitor w)
    end.
Proof.
  destruct (lookup c (inflight w)) as [ts |] eqn:Hl.
  - destruct (resume_settles w c ts x Hl) as (this & out & Hr & ->).
    rewrite scheduleNext_previous. cbn.
    destruct (resume_normal ts (monitor w) x) as (this' & out' & Hr' & Hp & _).
    rewrite Hr in Hr'. injection Hr' as <- <-. exact Hp.
  - unfold resume. now rewrite Hl.
Qed.

(** What one event does to the stored count. *)
Lemma step_previous (w : World) (e : Event) :
  previousSoldCount (monitor (step w e))
  = match e with
    | CheckSettles c x =>
        match process w, lookup c (inflight w), metric x with
        | Alive, Some _, Some n => Some n
        | _, _, _ => previousSoldCount (monitor w)
        end
    | _ => previousSoldCount (monitor w)
    end.
Proof.
  unfold step. destruct (process w) eqn:Hp.
  - destruct e; cbn.
    + apply start_previous.
    + apply stop_previous.
    + apply fire_previous.
    + apply resume_previous.
    + unfold signal. cbn. apply stop_previous.
  - destruct e; try reflexivity.
Qed.

Lemma run_no_success_previous (es : list Event) (w : World) :
  forallb no_success es = true ->
  previousSoldCount (monitor (run w es)) = previousSoldCount (monitor w).
Proof.
  revert w. induction es as [| e es IH]; intros w H.
  - reflexivity.
  - cbn [forallb] in H. apply andb_true_iff in H as [He Hes].
    change (run w (e :: es)) with (run (step w e) es).
    rewrite (IH _ Hes), step_previous.
    destruct e; try reflexivity. cbn in He.
    destruct (metric x); [discriminate |].
    destruct (process w), (lookup c (inflight w)); reflexivity.
Qed.

(** The line a successful check adds to the console. *)
Lemma settle_found_console (w : World) (c : nat) (ts : string) (n : Z) :
  process w = Alive ->
  lookup c (inflight w) = Some ts ->
  console (step w (CheckSettles c (found n)))
  = console w ++ [sold_line ts (previousSoldCount (monitor w)) n].
Proof.
  intros Hp Hl. unfold step. rewrite Hp.
  destruct (resume_settles w c ts (found n) Hl) as (this & out & Hr & ->).
  rewrite scheduleNext_console. cbn.
  rewrite resume_found in Hr. now injection Hr as <- <-.
Qed.

Lemma checkSoldSeats_found (ts : string) (n : Z) (this : SeatMonitor) :
  checkSoldSeats ts (found n) this
  = (Normal tt, set_previousSoldCount (Some n) this,
     [checking_line ts; sold_line ts (previousSoldCount this) n]).
Proof.
  rewrite checkSoldSeats_split. unfold bind, checkSoldSeats_begin, console_log.
  now rewrite resume_found.
Qed.

Lemma checkSoldSeats_failed (ts : string) (x : Exchange) (this : SeatMonitor) :
  metric x = None ->
  checkSoldSeats ts x this
  = (Normal tt, this,
     [checking_line ts;
      ConsoleError ("[" ++ ts ++ "] Error: " ++ failure_message x)]).
Proof.
  intros H. rewrite checkSoldSeats_split.
  unfold bind, checkSoldSeats_begin, console_log.
  now rewrite (resume_failed ts this x H).
Qed.

(** ** The stored count *)

(** C1. The stored count [previousSoldCount] changes exactly in the cycles
    that end without error: a cycle that obtains a count stores it, a cycle
    that fails at the request, at the timeout, at [JSON.parse] or inside the
    query leaves the whole monitor as it was.  Hence, once a check has stored
    [a], whatever happens next short of another successful check (failed
    checks, timers, [start], [stop]), the next successful check reports its
    count [b] against [a]. *)
Theorem previous_count_updated_iff_success :
  forall (ts : string) (x : Exchange) (this : SeatMonitor),
    after_check ts x this
    = match metric x with
      | Some n => set_previousSoldCount (Some n) this
      | None => this
      end
    /\ forall (w : World) (c0 : nat) (ts0 : string) (a : Z) (es : list Event)
              (c : nat) (ts' : string) (b : Z),
         process w = Alive ->
         lookup c0 (inflight w) = Some ts0 ->
         forallb no_success es = true ->
         let w' := run (step w (CheckSettles c0 (found a))) es in
         process w' = Alive ->
         lookup c (inflight w') = Some ts' ->
         previousSoldCount (monitor w') = Some a
         /\ console (step w' (CheckSettles c (found b)))
            = console w'
              ++ [ConsoleLog ("[" ++ ts' ++ "] Sold seats: " ++ JS.toString b
                              ++ " " ++ changeText (b - a))].
Proof.
  intros ts x this. split.
  - unfold after_check. destruct (metric x) as [n |] eqn:Hm.
    + apply metric_found in Hm. subst x. now rewrite checkSoldSeats_found.
    + now rewrite (checkSoldSeats_failed ts x this Hm).
  - intros w c0 ts0 a es c ts' b Hp Hl Hes w' Hp' Hl'.
    assert (Ha : previousSoldCount (monitor w') = Some a).
    { unfold w'. rewrite (run_no_success_previous es _ Hes), step_previous.
      now rewrite Hp, Hl. }
    split; [exact Ha |].
    rewrite (settle_found_console w' c ts' b Hp' Hl'), Ha. reflexivity.
Qed.

(** ** The delta annotation *)

Lemma toString_positive (z : Z) :
  (0 <= z)%Z -> JS.toString z = JS.digits (Z.to_N z).
Proof. intros H. unfold JS.toString. now destruct (Z.ltb_spec z 0); [lia |]. Qed.

Lemma toString_negative (z : Z) :
  (z < 0)%Z -> JS.toString z = ("-" ++ JS.digits (Z.to_N (- z)))%string.
Proof.
  intros H. unfold JS.toString. destruct (Z.ltb_spec z 0); [| lia].
  f_equal. f_equal. lia.
Qed.

(** C3. Two consecutive successful checks with counts [a] then [b], both
    non-negative integers: the second one prints its count followed by
    ["(+N)"] with [N = b - a] when [b > a], by ["(-N)"] with [N = a - b],
    that is the difference with its minus sign, when [b < a], and by
    ["(no change)"] when [b = a]. *)
Theorem delta_annotation :
  forall (ts1 ts2 : string) (a b : Z) (this : SeatMonitor),
    (0 <= a)%Z -> (0 <= b)%Z ->
    let line (annotation : string) :=
      [ConsoleLog ("[" ++ ts2 ++ "] Checking sold seats...");
       ConsoleLog ("[" ++ ts2 ++ "] Sold seats: " ++ JS.digits (Z.to_N b) ++ " "
                   ++ annotation)] in
    let out := printed_by_check ts2 (found b) (after_check ts1 (found a) this) in
    ((a < b)%Z -> out = line ("(+" ++ JS.digits (Z.to_N (b - a)) ++ ")")%string)
    /\ ((b < a)%Z -> out = line ("(-" ++ JS.digits (Z.to_N (a - b)) ++ ")")%string)
    /\ (a = b -> out = line "(no change)").
Proof.
  intros ts1 ts2 a b this Ha Hb line out.
  assert (Hout : out = [checking_line ts2; sold_line ts2 (Some a) b]).
  { unfold out, printed_by_check, after_check.
    now rewrite !checkSoldSeats_found. }
  rewrite Hout. unfold line, sold_line, checking_line, changeText.
  rewrite (toString_positive b Hb).
  repeat split; intros H.
  - destruct (Z.gtb_spec (b - a) 0); [| lia].
    now rewrite (toString_positive (b - a)) by lia.
  - destruct (Z.gtb_spec (b - a) 0); [lia |].
    destruct (Z.ltb_spec (b - a) 0); [| lia].
    rewrite (toString_negative (b - a)) by lia.
    now replace (- (b - a))%Z with (a - b)%Z by lia.
  - subst b. rewrite Z.sub_diag. reflexivity.
Qed.

(** C7. As long as no check has succeeded since the process started,
    [previousSoldCount] is [null], and the check that then succeeds prints
    its count and nothing after it. *)
Theorem first_success_has_no_delta :
  forall (minutes : JS.Number) (es : list Event) (c : nat) (ts : string) (n : Z),
    forallb no_success es = true ->
    let w := run (boot minutes) es in
    process w = Alive ->
    lookup c (inflight w) = Some ts ->
    previousSoldCount (monitor w) = None
    /\ console (step w (CheckSettles c (found n)))
       = console w ++ [ConsoleLog ("[" ++ ts ++ "] Sold seats: " ++ JS.toString n)]
    /\ printed_by_check ts (found n) (monitor w)
       = [ConsoleLog ("[" ++ ts ++ "] Checking sold seats...");
          ConsoleLog ("[" ++ ts ++ "] Sold seats: " ++ JS.toString n)].
Proof.
  intros minutes es c ts n Hes w Hp Hl.
  assert (Hnone : previousSoldCount (monitor w) = None).
  { unfold w. now rewrite (run_no_success_previous es _ Hes). }
  repeat split.
  - exact Hnone.
  - rewrite (settle_found_console w c ts n Hp Hl), Hnone. reflexivity.
  - unfold printed_by_check. rewrite checkSoldSeats_found, Hnone. reflexivity.
Qed.

(** ** Errors stay inside the cycle *)

(** X14. Whenever one of the three listeners of [fetchData] settles the
    promise (request error, timeout, a body that is not JSON, a body on
    which the query throws, or a count), [checkSoldSeats] ends normally.
    When the exchange fails, the exception is caught inside the method, one
    error line is printed after the opening line, and the monitor is
    untouched.  In the event loop, a check that settles never ends the
    process, and when the monitor is running the next timer is armed. *)
Theorem check_errors_never_escape :
  forall (ts : string) (x : Exchange) (this : SeatMonitor),
    (exists this' out, checkSoldSeats ts x this = (Normal tt, this', out))
    /\ (metric x = None ->
        checkSoldSeats ts x this
        = (Normal tt, this,
           [ConsoleLog ("[" ++ ts ++ "] Checking sold seats...");
            ConsoleError ("[" ++ ts ++ "] Error: " ++ failure_message x)]))
    /\ forall (w : World) (c : nat),
         process w = Alive ->
         process (step w (CheckSettles c x)) = Alive
         /\ (lookup c (inflight w) = Some ts ->
             isRunning (monitor w) = true ->
             In (nextTimeout w) (timers (step w (CheckSettles c x)))
             /\ timeoutId (monitor (step w (CheckSettles c x)))
                = Some (nextTimeout w)).
Proof.
  intros ts x this. split; [| split].
  - destruct (metric x) as [n |] eqn:Hm.
    + apply metric_found in Hm. subst x. rewrite checkSoldSeats_found.
      now eexists _, _.
    + rewrite (checkSoldSeats_failed ts x this Hm). now eexists _, _.
  - apply checkSoldSeats_failed.
  - intros w c Hp. unfold step. rewrite Hp.
    destruct (lookup c (inflight w)) as [ts' |] eqn:Hl.
    + destruct (resume_settles w c ts' x Hl) as (this' & out & Hr & ->).
      split; [now rewrite scheduleNext_process |].
      intros [= ->] Hrun.
      destruct (resume_normal ts (monitor w) x)
        as (this2 & out2 & Hr2 & _ & Hrun2 & _).
      rewrite Hr in Hr2. injection Hr2 as <- <-.
      unfold scheduleNext. cbn. rewrite Hrun2, Hrun. cbn.
      split; [apply in_or_app; right; now left | reflexivity].
    + unfold resume. rewrite Hl. split; [exact Hp | discriminate].
Qed.

(** C10. After a check has succeeded, [previousSoldCount] holds a number in
    every later state, whatever events follow ([start], [stop], signals,
    timers, failed or successful checks); so every later successful check
    prints a delta annotation, computed against the number held then. *)
Theorem previous_count_never_reset :
  forall (w : World) (c : nat) (ts : string) (n : Z) (es : list Event),
    process w = Alive ->
    lookup c (inflight w) = Some ts ->
    let w' := run (step w (CheckSettles c (found n))) es in
    exists a : Z,
      previousSoldCount (monitor w') = Some a
      /\ forall (c' : nat) (ts' : string) (n' : Z),
           process w' = Alive ->
           lookup c' (inflight w') = Some ts' ->
           console (step w' (CheckSettles c' (found n')))
           = console w'
             ++ [ConsoleLog ("[" ++ ts' ++ "] Sold seats: " ++ JS.toString n'
                             ++ " " ++ changeText (n' - a))]
           /\ changeText (n' - a) <> ""%string.
Proof.
  intros w c ts n es Hp Hl w'.
  assert (Hsome : exists a, previousSoldCount (monitor w') = Some a).
  { unfold w'.
    assert (H1 : exists a, previousSoldCount
                   (monitor (step w (CheckSettles c (found n)))) = Some a).
    { exists n. rewrite step_previous. now rewrite Hp, Hl. }
    revert H1. generalize (step w (CheckSettles c (found n))).
    induction es as [| e es IH]; intros w0 [a Ha].
    - now exists a.
    - change (run w0 (e :: es)) with (run (step w0 e) es). apply IH.
      rewrite step_previous.
      destruct e; eauto.
      destruct (process w0), (lookup c0 (inflight w0)), (metric x); eauto. }
  destruct Hsome as [a Ha]. exists a. split; [exact Ha |].
  intros c' ts' n' Hp' Hl'. split.
  - rewrite (settle_found_console w' c' ts' n' Hp' Hl'), Ha. reflexivity.
  - unfold changeText.
    destruct (n' - a >? 0)%Z; [discriminate |].
    destruct (n' - a <? 0)%Z; discriminate.
Qed.

(** ** start and stop *)


Lemma stop_not_running (w : World) :
  isRunning (monitor w) = false -> stop w = w.
Proof. intros H. unfold stop. now rewrite H. Qed.

(** [stop()] on a running monitor, field by field. *)
Lemma stop_running (w : World) :
  isRunning (monitor w) = true ->
  stop w
  = mkWorld (set_timeoutId None (set_isRunning false (monitor w)))
            (match timeoutId (monitor w) with
             | Some t => remove Nat.eq_dec t (timers w)
             | None => timers w
             end)
            (inflight w) (console w ++ [stopped_notice]) (nextTimeout w)
            (nextCheck w) (process w).
Proof.
  intros H. unfold stop. rewrite H.
  destruct w as [[mi ms r [t |] p] tm fl co nt nc pr]; reflexivity.
Qed.

(** C9. [start()] on a monitor that is running prints the notice
    "Monitor is already running" and does nothing else: the monitor, the armed
    timers and the suspended checks are as before, and no call of
    [checkSoldSeats] is made. *)
Theorem start_while_running_is_noop :
  forall (now : string) (w : World),
    process w = Alive ->
    isRunning (monitor w) = true ->
    let w' := step w (CallStart now) in
    w' = print [ConsoleLog "Monitor is already running"] w
    /\ console w' = console w ++ [ConsoleLog "Monitor is already running"]
    /\ monitor w' = monitor w
    /\ timers w' = timers w
    /\ inflight w' = inflight w
    /\ nextCheck w' = nextCheck w.
Proof.
  intros now w Hp Hrun w'.
  assert (H : w' = print [ConsoleLog "Monitor is already running"] w).
  { unfold w', step, start. now rewrite Hp, Hrun. }
  rewrite H. repeat split.
Qed.


(** ** One timer, one check *)

Lemma tidy_shape (w : World) :
  tidy w <->
  (timers w = [] /\ (List.length (inflight w) <= 1)%nat)
  \/ (exists t, timers w = [t] /\ inflight w = []
                /\ isRunning (monitor w) = true
                /\ timeoutId (monitor w) = Some t).
Proof.
  unfold tidy. split.
  - intros [Hlen Hin]. destruct (timers w) as [| t [| u l]] eqn:Ht; cbn in Hlen.
    + left. split; [reflexivity | exact Hlen].
    + right. exists t. destruct (Hin t (or_introl eq_refl)) as [Hr Hid].
      destruct (inflight w); cbn in Hlen; [now repeat split | lia].
    + lia.
  - intros [[Ht Hlen] | (t & Ht & Hi & Hr & Hid)]; rewrite Ht.
    + split; [exact Hlen | intros t []].
    + rewrite Hi. split; [cbn; lia |].
      intros u [<- | []]. now split.
Qed.

Lemma lookup_forget (c : nat) (ts : string) (l : list (nat * string)) :
  lookup c l = Some ts -> List.length l = S (List.length (forget c l)).
Proof.
  induction l as [| [c' ts'] l IH]; cbn; [discriminate |].
  destruct (Nat.eqb c c'); [reflexivity |].
  intros H. cbn. now rewrite (IH H).
Qed.

Lemma tidy_boot (minutes : JS.Number) : tidy (boot minutes).
Proof. split; cbn; [lia | intros t []]. Qed.

Lemma tidy_stop (w : World) : tidy w -> tidy (stop w).
Proof.
  intros Hw. destruct (isRunning (monitor w)) eqn:Hr.
  - rewrite (stop_running w Hr). apply tidy_shape. left. cbn.
    apply tidy_shape in Hw.
    destruct Hw as [[Ht Hlen] | (t & Ht & Hi & _ & Hid)].
    + rewrite Ht. split; [now destruct (timeoutId (monitor w)) | exact Hlen].
    + rewrite Hid, Ht, Hi. cbn. destruct (Nat.eq_dec t t); [| contradiction].
      split; [reflexivity | lia].
  - now rewrite (stop_not_running w Hr).
Qed.

Lemma tidy_start (now : string) (w : World) :
  tidy w -> restarts_mid_check w (CallStart now) = false -> tidy (start now w).
Proof.
  intros Hw Hg. unfold start. destruct (isRunning (monitor w)) eqn:Hr.
  - exact Hw.
  - cbn in Hg. rewrite Hr in Hg. cbn in Hg.
    apply negb_false_iff, Nat.eqb_eq in Hg.
    destruct (inflight w) eqn:Hi; [| discriminate].
    apply tidy_shape in Hw. apply tidy_shape. left. cbn. rewrite Hi. cbn.
    destruct Hw as [[Ht _] | (t & _ & _ & Hr' & _)]; [| congruence].
    split; [exact Ht | lia].
Qed.

Lemma tidy_fire (t : Timeout) (now : string) (w : World) :
  tidy w -> tidy (fire t now w).
Proof.
  intros Hw. unfold fire. destruct (existsb (Nat.eqb t) (timers w)) eqn:Hex.
  - apply tidy_shape in Hw. apply tidy_shape. left. cbn.
    destruct Hw as [[Ht _] | (u & Ht & Hi & _ & _)].
    + rewrite Ht in Hex. discriminate.
    + rewrite Ht in Hex. cbn in Hex. rewrite orb_false_r in Hex.
      apply Nat.eqb_eq in Hex. subst u. rewrite Ht, Hi. cbn.
      destruct (Nat.eq_dec t t); [| contradiction]. split; [reflexivity | lia].
  - exact Hw.
Qed.

Lemma tidy_resume (c : nat) (x : Exchange) (w : World) :
  tidy w -> tidy (resume c x w).
Proof.
  intros Hw. destruct (lookup c (inflight w)) as [ts |] eqn:Hl.
  - destruct (resume_settles w c ts x Hl) as (this & out & Hr & ->).
    destruct (resume_normal ts (monitor w) x) as (this' & out' & Hr' & _ & Hrun & _).
    rewrite Hr in Hr'. injection Hr' as <- <-.
    pose proof (lookup_forget c ts _ Hl) as Hlen.
    apply tidy_shape in Hw.
    destruct Hw as [[Ht Hle] | (u & _ & Hi & _ & _)];
      [| rewrite Hi in Hl; discriminate].
    assert (Hnil : forget c (inflight w) = []).
    { destruct (forget c (inflight w)); [reflexivity | cbn in Hlen; lia]. }
    apply tidy_shape. unfold scheduleNext. cbn. rewrite Hrun.
    destruct (isRunning (monitor w)); cbn; rewrite Ht, Hnil.
    + right. exists (nextTimeout w). now repeat split.
    + left. split; [reflexivity | cbn; lia].
  - unfold resume. now rewrite Hl.
Qed.

Lemma tidy_step (w : World) (e : Event) :
  tidy w -> restarts_mid_check w e = false -> tidy (step w e).
Proof.
  intros Hw Hg. unfold step. destruct (process w); [| exact Hw].
  destruct e.
  - now apply tidy_start.
  - now apply tidy_stop.
  - now apply tidy_fire.
  - now apply tidy_resume.
  - unfold signal. apply tidy_stop in Hw. exact Hw.
Qed.

(** As long as [start()] is not called on a stopped monitor with a check
    still suspended, there is at most one armed timer or one suspended
    check, never both, and the armed timer is the one held in [timeoutId]. *)
Lemma orderly_tidy (es : list Event) (w : World) :
  tidy w -> orderly w es = true -> tidy (run w es).
Proof.
  revert w. induction es as [| e es IH]; intros w Hw Ho.
  - exact Hw.
  - cbn [orderly] in Ho. apply andb_true_iff in Ho as [Hg Ho].
    apply negb_true_iff in Hg.
    change (run w (e :: es)) with (run (step w e) es).
    apply IH; [now apply tidy_step | exact Ho].
Qed.

(** With nothing armed and nothing suspended, only [start()] can make a check
    run. *)
Lemma quiet_step (w : World) (e : Event) :
  timers w = [] -> inflight w = [] -> not_start e = true ->
  timers (step w e) = [] /\ inflight (step w e) = []
  /\ nextCheck (step w e) = nextCheck w.
Proof.
  intros Ht Hi He. unfold step. destruct (process w); [| now repeat split].
  assert (Hstop : timers (stop w) = [] /\ inflight (stop w) = []
                  /\ nextCheck (stop w) = nextCheck w).
  { destruct (isRunning (monitor w)) eqn:Hr.
    - rewrite (stop_running w Hr). cbn. rewrite Ht, Hi.
      now destruct (timeoutId (monitor w)).
    - now rewrite (stop_not_running w Hr). }
  destruct e; try discriminate.
  - exact Hstop.
  - unfold fire. rewrite Ht. now repeat split.
  - unfold resume. rewrite Hi. now repeat split.
  - exact Hstop.
Qed.

Lemma quiet_run (es : list Event) (w : World) :
  timers w = [] -> inflight w = [] -> forallb not_start es = true ->
  timers (run w es) = [] /\ inflight (run w es) = []
  /\ nextCheck (run w es) = nextCheck w.
Proof.
  revert w. induction es as [| e es IH]; intros w Ht Hi Hes.
  - now repeat split.
  - cbn [forallb] in Hes. apply andb_true_iff in Hes as [He Hes].
    change (run w (e :: es)) with (run (step w e) es).
    destruct (quiet_step w e Ht Hi He) as (Ht' & Hi' & Hn).
    destruct (IH _ Ht' Hi' Hes) as (Ht2 & Hi2 & Hn2).
    repeat split; congruence.
Qed.

(** X15. Take any history of the process in which [start()] was never called
    on a stopped monitor with a check still suspended, and which ends with a
    scheduled timer armed.  [stop()] at that point clears that timer: no
    timer is armed and no check is suspended afterwards, and from then on, as
    long as [start()] is not called again, no call of [checkSoldSeats] is
    ever made, whatever the events. *)
Theorem stop_cancels_pending_timer :
  forall (minutes : JS.Number) (es : list Event),
    orderly (boot minutes) es = true ->
    let w := run (boot minutes) es in
    process w = Alive ->
    timers w <> [] ->
    let w' := step w CallStop in
    isRunning (monitor w') = false
    /\ timers w' = []
    /\ inflight w' = []
    /\ nextCheck w' = nextCheck w
    /\ forall es' : list Event,
         forallb not_start es' = true ->
         nextCheck (run w' es') = nextCheck w
         /\ timers (run w' es') = []
         /\ inflight (run w' es') = [].
Proof.
  intros minutes es Ho w Hp Hne w'.
  pose proof (orderly_tidy es _ (tidy_boot minutes) Ho) as Hw.
  fold w in Hw. apply tidy_shape in Hw.
  destruct Hw as [[Ht _] | (t & Ht & Hi & Hr & Hid)]; [contradiction |].
  assert (Hs : w' = stop w) by (unfold w', step; now rewrite Hp).
  assert (Hq : isRunning (monitor (stop w)) = false
               /\ timers (stop w) = [] /\ inflight (stop w) = []
               /\ nextCheck (stop w) = nextCheck w).
  { rewrite (stop_running w Hr). cbn. rewrite Ht, Hi, Hid. cbn.
    destruct (Nat.eq_dec t t); [now repeat split | contradiction]. }
  rewrite Hs. destruct Hq as (Hqr & Hqt & Hqi & Hqn).
  repeat split; try assumption.
  all: intros; destruct (quiet_run es' (stop w) Hqt Hqi) as (H1 & H2 & H3);
    [assumption | congruence].
Qed.

(** C2, at the input where the program departs from it.  [start()], then
    [stop()] while the first check still awaits its response, then [start()]
    again: two checks are in flight at once.  When both have settled, two
    timers are armed and [timeoutId] holds only the second.  A [stop()] then
    clears that one; the other fires afterwards and a check runs on a stopped
    monitor. *)
Theorem restart_during_check_overlaps :
  let w3 := run (boot DEFAULT_INTERVAL)
                [CallStart "T0"; CallStop; CallStart "T1"] in
  let w5 := run w3 [CheckSettles 0 (found 3); CheckSettles 1 (found 3)] in
  let w7 := run w5 [CallStop; TimerFires 0 "T2"] in
  inflight w3 = [(0, "T0"); (1, "T1")]
  /\ timers w5 = [0; 1]
  /\ timeoutId (monitor w5) = Some 1
  /\ process w7 = Alive
  /\ isRunning (monitor w7) = false
  /\ inflight w7 = [(2, "T2")]
  /\ nextCheck w7 = S (nextCheck w5)
  /\ ~ tidy w3 /\ ~ tidy w5.
Proof.
  cbv zeta. repeat split; try reflexivity.
  - intros [Hlen _]. vm_compute in Hlen. lia.
  - intros [Hlen _]. vm_compute in Hlen. lia.
Qed.

(** ** The interval flag *)

Lemma is_interval_inv (flag : string) :
  is_interval flag = true -> flag = "--interval" \/ flag = "-i".
Proof.
  unfold is_interval. intros H. apply orb_true_iff in H as [H | H];
    apply String.eqb_eq in H; auto.
Qed.

Lemma interval_flag_facts (flag : string) :
  is_interval flag = true ->
  is_help flag = false /\ JS.isNaN flag = true.
Proof. intros H. destruct (is_interval_inv flag H) as [-> | ->]; now split. Qed.

(** The loop at an interval flag whose value it refuses. *)
Lemma scan_at_refused (flag : string) (rest : list string) (minutes : JS.Number) :
  is_interval flag = true -> refused rest = true ->
  exists msg, scan_arguments (flag :: rest) minutes
              = ProcessExit 1 [ConsoleError msg].
Proof.
  intros Hf Hr. destruct (interval_flag_facts flag Hf) as [Hh _].
  cbn [scan_arguments]. rewrite Hh, Hf.
  destruct rest as [| nextArg rest']; [now eexists |].
  cbn [refused] in Hr.
  destruct ((nextArg =? "")%string || JS.isNaN nextArg); [now eexists |].
  cbn in Hr. rewrite Hr. now eexists.
Qed.

Lemma scan_reaches_refused (n : nat) :
  forall (pre : list string) (flag : string) (rest : list string)
         (minutes : JS.Number),
    (List.length pre <= n)%nat ->
    forallb (fun a => negb (is_help a)) pre = true ->
    is_interval flag = true -> refused rest = true ->
    exists msg, scan_arguments (pre ++ flag :: rest) minutes
                = ProcessExit 1 [ConsoleError msg].
Proof.
  induction n as [| n IH]; intros pre flag rest minutes Hlen Hpre Hf Hr.
  - destruct pre; [| cbn in Hlen; lia]. now apply scan_at_refused.
  - destruct pre as [| a pre]; [now apply scan_at_refused |].
    cbn [forallb] in Hpre. apply andb_true_iff in Hpre as [Ha Hpre].
    apply negb_true_iff in Ha. cbn in Hlen.
    cbn [app scan_arguments]. rewrite Ha.
    destruct (is_interval a).
    + destruct pre as [| v pre].
      * cbn [app]. destruct (interval_flag_facts flag Hf) as [_ Hnan].
        rewrite Hnan, orb_true_r. now eexists.
      * cbn [app].
        destruct ((v =? "")%string || JS.isNaN v); [now eexists |].
        destruct (JS.le0 (JS.parseFloat v)); [now eexists |].
        cbn [forallb] in Hpre. apply andb_true_iff in Hpre as [_ Hpre].
        apply IH; auto. cbn in Hlen. lia.
    + apply IH; auto. lia.
Qed.

(** C4, as the program has it.  When the scan reaches an interval flag
    ([--interval] or [-i]) with no [--help] or [-h] before it, and the value
    after the flag is missing, empty, not numeric for [isNaN], or parsed by
    [parseFloat] to a number that is not above zero, the process prints one
    line on the error stream and exits with status 1, and [main] builds no
    monitor.  The values 0, -3 and abc are refused; 0.5 is accepted and the
    monitor starts with an interval of 0.5 minutes, 30000 ms. *)
Theorem refused_interval_exits_1 :
  forall now : string,
    (forall (pre : list string) (flag : string) (rest : list string),
        forallb (fun a => negb (is_help a)) pre = true ->
        is_interval flag = true ->
        refused rest = true ->
        exists msg,
          parseArguments (pre ++ flag :: rest) = ProcessExit 1 [ConsoleError msg]
          /\ main (pre ++ flag :: rest) now = Halted 1 [ConsoleError msg])
    /\ (forall flag : string,
          is_interval flag = true ->
          main [flag; "0"] now = Halted 1 not_positive
          /\ main [flag; "-3"] now = Halted 1 not_positive
          /\ main [flag; "abc"] now = Halted 1 not_numeric
          /\ parseArguments [flag; "0.5"] = Returns (JS.Decimal false 5 (-1))
          /\ main [flag; "0.5"] now
             = Monitoring (start now (boot (JS.Decimal false 5 (-1))))
          /\ intervalMs (new_SeatMonitor (JS.Decimal false 5 (-1)))
             = JS.Decimal false 300000 (-1)).
Proof.
  intros now. split.
  - intros pre flag rest Hpre Hf Hr.
    destruct (scan_reaches_refused (List.length pre) pre flag rest
                DEFAULT_INTERVAL (le_n _) Hpre Hf Hr) as [msg Hmsg].
    exists msg. unfold main, parseArguments. now rewrite Hmsg.
  - intros flag Hf. destruct (is_interval_inv flag Hf) as [-> | ->];
      repeat split.
Qed.

(** C4 as worded fails where a help flag comes first: the list
    contains [--interval abc], abc is not a number, and the process prints
    the help text on the standard stream and exits with status 0. *)
Lemma help_before_refused_interval_exits_0 :
  let args := ["--help"; "--interval"; "abc"] in
  nth_error args 1 = Some "--interval"
  /\ nth_error args 2 = Some "abc"
  /\ JS.parseFloat "abc" = JS.NaN
  /\ JS.ToNumber "abc" = JS.NaN
  /\ parseArguments args = ProcessExit 0 [ConsoleLog helpText]
  /\ main args "T0" = Halted 0 [ConsoleLog helpText]
  /\ main args "T0" <> Halted 1 not_numeric
  /\ main args "T0" <> Halted 1 not_positive.
Proof. repeat split; discriminate. Qed.

(** A value made of white space only is numeric for [isNaN] (it converts to
    0) and is parsed by [parseFloat] to NaN, which is not [<= 0]: it passes
    both tests and the monitor is built with a NaN interval. *)
Example blank_interval_passes :
  JS.isNaN " " = false
  /\ JS.parseFloat " " = JS.NaN
  /\ refused [" "] = false
  /\ parseArguments ["-i"; " "] = Returns JS.NaN.
Proof. repeat split. Qed.

(** ** The statements at concrete inputs *)

Lemma previous_count_updated_iff_success_witness :
  let w := run (boot DEFAULT_INTERVAL) [CallStart "T0"] in
  let w' := run (step w (CheckSettles 0 (found 3)))
                [TimerFires 0 "T1"; CheckSettles 1 RequestTimeout;
                 TimerFires 1 "T2"] in
  previousSoldCount (monitor w') = Some 3%Z
  /\ console (step w' (CheckSettles 2 (found 5)))
     = console w' ++ [ConsoleLog "[T2] Sold seats: 5 (+2)"].
Proof.
  intros w w'.
  apply (proj2 (previous_count_updated_iff_success
                  "T0" (found 3) (new_SeatMonitor DEFAULT_INTERVAL))
               w 0 "T0" 3%Z
               [TimerFires 0 "T1"; CheckSettles 1 RequestTimeout;
                TimerFires 1 "T2"]
               2 "T2" 5%Z); reflexivity.
Defined.

Lemma delta_annotation_witness :
  printed_by_check "T1" (found 5)
    (after_check "T0" (found 3) (new_SeatMonitor DEFAULT_INTERVAL))
  = [ConsoleLog "[T1] Checking sold seats...";
     ConsoleLog "[T1] Sold seats: 5 (+2)"]
  /\ printed_by_check "T1" (found 3)
       (after_check "T0" (found 5) (new_SeatMonitor DEFAULT_INTERVAL))
     = [ConsoleLog "[T1] Checking sold seats...";
        ConsoleLog "[T1] Sold seats: 3 (-2)"].
Proof.
  split.
  - apply (proj1 (delta_annotation "T0" "T1" 3 5
                    (new_SeatMonitor DEFAULT_INTERVAL)
                    ltac:(lia) ltac:(lia))); lia.
  - apply (proj1 (proj2 (delta_annotation "T0" "T1" 5 3
                           (new_SeatMonitor DEFAULT_INTERVAL)
                           ltac:(lia) ltac:(lia)))); lia.
Defined.

Lemma refused_interval_exits_1_witness :
  exists msg,
    parseArguments ["--verbose"; "-i"; "2"; "--interval"; "-3"; "--help"]
    = ProcessExit 1 [ConsoleError msg]
    /\ main ["--verbose"; "-i"; "2"; "--interval"; "-3"; "--help"] "T0"
       = Halted 1 [ConsoleError msg].
Proof.
  apply (proj1 (refused_interval_exits_1 "T0")
               ["--verbose"; "-i"; "2"] "--interval" ["-3"; "--help"]);
    reflexivity.
Defined.

Lemma check_errors_never_escape_witness :
  let w := run (boot DEFAULT_INTERVAL) [CallStart "T0"] in
  process (step w (CheckSettles 0 (RequestError "ECONNRESET"))) = Alive
  /\ timers (step w (CheckSettles 0 (RequestError "ECONNRESET"))) = [0%nat]
  /\ checkSoldSeats "T0" (RequestError "ECONNRESET") (monitor w)
     = (Normal tt, monitor w,
        [ConsoleLog "[T0] Checking sold seats...";
         ConsoleError "[T0] Error: Request failed: ECONNRESET"]).
Proof.
  intros w.
  pose proof (check_errors_never_escape "T0" (RequestError "ECONNRESET")
                (monitor w)) as (_ & Hfail & Hloop).
  destruct (Hloop w 0%nat eq_refl) as [Halive Harmed].
  destruct (Harmed eq_refl eq_refl) as [_ Hid].
  split; [exact Halive |]. split; [reflexivity |].
  exact (Hfail eq_refl).
Defined.

Lemma stop_cancels_pending_timer_witness :
  let w := run (boot DEFAULT_INTERVAL) [CallStart "T0"; CheckSettles 0 (found 3)] in
  timers w = [0%nat]
  /\ timers (step w CallStop) = []
  /\ nextCheck (run (step w CallStop)
                    [TimerFires 0 "T1"; CheckSettles 0 (found 4); CallStop])
     = 1%nat.
Proof.
  intros w.
  pose proof (stop_cancels_pending_timer DEFAULT_INTERVAL
                [CallStart "T0"; CheckSettles 0 (found 3)]
                eq_refl eq_refl ltac:(discriminate)) as (_ & Ht & _ & _ & Hlater).
  split; [reflexivity |]. split; [exact Ht |].
  exact (proj1 (Hlater [TimerFires 0 "T1"; CheckSettles 0 (found 4); CallStop]
                       eq_refl)).
Defined.

Lemma first_success_has_no_delta_witness :
  let w := run (boot DEFAULT_INTERVAL)
               [CallStart "T0"; CheckSettles 0 RequestTimeout; TimerFires 0 "T1"] in
  console (step w (CheckSettles 1 (found 3)))
  = console w ++ [ConsoleLog "[T1] Sold seats: 3"].
Proof.
  intros w.
  exact (proj1 (proj2 (first_success_has_no_delta DEFAULT_INTERVAL
                         [CallStart "T0"; CheckSettles 0 RequestTimeout;
                          TimerFires 0 "T1"]
                         1 "T1" 3%Z eq_refl eq_refl eq_refl))).
Defined.


Lemma start_while_running_is_noop_witness :
  let w := run (boot DEFAULT_INTERVAL) [CallStart "T0"; CheckSettles 0 (found 3)] in
  isRunning (monitor w) = true
  /\ console (step w (CallStart "T1"))
     = console w ++ [ConsoleLog "Monitor is already running"]
  /\ timers (step w (CallStart "T1")) = [0%nat]
  /\ nextCheck (step w (CallStart "T1")) = 1%nat.
Proof.
  intros w.
  destruct (start_while_running_is_noop "T1" w eq_refl eq_refl)
    as (_ & Hc & _ & Ht & _ & Hn).
  split; [reflexivity |]. split; [exact Hc |]. split; [exact Ht | exact Hn].
Defined.

Lemma previous_count_never_reset_witness :
  let w := run (boot DEFAULT_INTERVAL) [CallStart "T0"] in
  let w' := run (step w (CheckSettles 0 (found 3)))
                [CallStop; CallStart "T1"; CheckSettles 1 RequestTimeout] in
  exists a : Z, previousSoldCount (monitor w') = Some a.
Proof.
  intros w w'.
  destruct (previous_count_never_reset w 0 "T0" 3%Z
              [CallStop; CallStart "T1"; CheckSettles 1 RequestTimeout]
              eq_refl eq_refl) as (a & Ha & _).
  exists a. exact Ha.
Defined.

(** * Further properties of the program *)

(** ** Steps, field by field *)

Lemma resume_result (ts : string) (x : Exchange) (this : SeatMonitor) :
  checkSoldSeats_resume ts x this
  = (Normal tt,
     match metric x with
     | Some n => set_previousSoldCount (Some n) this
     | None => this
     end,
     [result_line ts (previousSoldCount this) x]).
Proof.
  unfold result_line. destruct (metric x) as [n |] eqn:Hm.
  - apply metric_found in Hm. subst x. now rewrite resume_found.
  - now rewrite (resume_failed ts this x Hm).
Qed.

Lemma resume_explicit (w : World) (c : nat) (ts : string) (x : Exchange) :
  lookup c (inflight w) = Some ts ->
  resume c x w
  = scheduleNext
      (print [result_line ts (previousSoldCount (monitor w)) x]
         (with_monitor
            match metric x with
            | Some n => set_previousSoldCount (Some n) (monitor w)
            | None => monitor w
            end
            (with_inflight (forget c (inflight w)) w))).
Proof.
  intros Hl. unfold resume. rewrite Hl.
  cbn [monitor with_inflight]. now rewrite resume_result.
Qed.

Lemma resume_unknown (w : World) (c : nat) (x : Exchange) :
  lookup c (inflight w) = None -> resume c x w = w.
Proof. intros Hl. unfold resume. now rewrite Hl. Qed.

Lemma start_stopped (now : string) (w : World) :
  isRunning (monitor w) = false ->
  start now w
  = mkWorld (set_isRunning true (monitor w)) (timers w)
            (inflight w ++ [(nextCheck w, now)])
            ((console w ++ banner (monitor w)) ++ [checking_line now])
            (nextTimeout w) (S (nextCheck w)) (process w).
Proof. intros H. unfold start. now rewrite H. Qed.

Lemma start_already_running (now : string) (w : World) :
  isRunning (monitor w) = true ->
  start now w = print [ConsoleLog "Monitor is already running"] w.
Proof. intros H. unfold start. now rewrite H. Qed.

Lemma stop_isRunning (w : World) : isRunning (monitor (stop w)) = false.
Proof.
  destruct (isRunning (monitor w)) eqn:Hr.
  - now rewrite (stop_running w Hr).
  - now rewrite (stop_not_running w Hr).
Qed.

Lemma scheduleNext_isRunning (w : World) :
  isRunning (monitor (scheduleNext w)) = isRunning (monitor w).
Proof. unfold scheduleNext. destruct (isRunning (monitor w)) eqn:H; cbn; auto. Qed.

Lemma resume_isRunning (c : nat) (x : Exchange) (w : World) :
  isRunning (monitor (resume c x w)) = isRunning (monitor w).
Proof.
  destruct (lookup c (inflight w)) as [ts |] eqn:Hl.
  - rewrite (resume_explicit w c ts x Hl), scheduleNext_isRunning. cbn.
    now destruct (metric x).
  - now rewrite (resume_unknown w c x Hl).
Qed.

Lemma fire_isRunning (t : Timeout) (now : string) (w : World) :
  isRunning (monitor (fire t now w)) = isRunning (monitor w).
Proof. unfold fire. now destruct (existsb _ _). Qed.

Lemma step_isRunning (w : World) (e : Event) :
  isRunning (monitor (step w e))
  = match process w, e with
    | Alive, CallStart _ => true
    | Alive, (CallStop | Signal) => false
    | _, _ => isRunning (monitor w)
    end.
Proof.
  unfold step. destruct (process w); [| now destruct e].
  destruct e.
  - destruct (isRunning (monitor w)) eqn:Hr.
    + now rewrite (start_already_running now w Hr).
    + now rewrite (start_stopped now w Hr).
  - apply stop_isRunning.
  - apply fire_isRunning.
  - apply resume_isRunning.
  - unfold signal. cbn. apply stop_isRunning.
Qed.

Lemma step_process (w : World) (e : Event) :
  process (step w e)
  = match process w, e with
    | Alive, Signal => Exited 0
    | p, _ => p
    end.
Proof.
  unfold step. destruct (process w) eqn:Hp; [| now destruct e].
  destruct e.
  - unfold start. now destruct (isRunning (monitor w)).
  - destruct (isRunning (monitor w)) eqn:Hr.
    + now rewrite (stop_running w Hr).
    + now rewrite (stop_not_running w Hr).
  - unfold fire. now destruct (existsb _ _).
  - destruct (lookup c (inflight w)) as [ts |] eqn:Hl.
    + now rewrite (resume_explicit w c ts x Hl), scheduleNext_process.
    + now rewrite (resume_unknown w c x Hl).
  - reflexivity.
Qed.

Lemma run_exited (es : list Event) (w : World) (code : Z) :
  process w = Exited code -> run w es = w.
Proof.
  induction es as [| e es IH]; intros H; [reflexivity |].
  change (run w (e :: es)) with (run (step w e) es).
  rewrite (step_exited w e code H). now apply IH.
Qed.

Lemma step_interval (w : World) (e : Event) :
  intervalMinutes (monitor (step w e)) = intervalMinutes (monitor w)
  /\ intervalMs (monitor (step w e)) = intervalMs (monitor w).
Proof.
  assert (Hstop : intervalMinutes (monitor (stop w)) = intervalMinutes (monitor w)
                  /\ intervalMs (monitor (stop w)) = intervalMs (monitor w)).
  { destruct (isRunning (monitor w)) eqn:Hr.
    - now rewrite (stop_running w Hr).
    - now rewrite (stop_not_running w Hr). }
  unfold step. destruct (process w); [| now split].
  destruct e.
  - unfold start. now destruct (isRunning (monitor w)).
  - exact Hstop.
  - unfold fire. now destruct (existsb _ _).
  - destruct (lookup c (inflight w)) as [ts |] eqn:Hl.
    + rewrite (resume_explicit w c ts x Hl). unfold scheduleNext. cbn.
      destruct (metric x); cbn; destruct (isRunning (monitor w)); now split.
    + now rewrite (resume_unknown w c x Hl).
  - exact Hstop.
Qed.

(** While the monitor runs, something is pending for it. *)
Lemma busy_step (w : World) (e : Event) :
  (isRunning (monitor w) = true -> (1 <= pending w)%nat) ->
  isRunning (monitor (step w e)) = true -> (1 <= pending (step w e))%nat.
Proof.
  intros Hw. rewrite step_isRunning. unfold step, pending.
  destruct (process w); [| exact Hw].
  destruct e; try discriminate.
  - intros _. destruct (isRunning (monitor w)) eqn:Hr.
    + rewrite (start_already_running now w Hr). now apply Hw.
    + rewrite (start_stopped now w Hr). cbn. rewrite length_app. cbn. lia.
  - intros Hr. unfold fire. destruct (existsb _ _).
    + cbn. rewrite length_app. cbn. lia.
    + now apply Hw.
  - intros Hr. destruct (lookup c (inflight w)) as [ts |] eqn:Hl.
    + rewrite (resume_explicit w c ts x Hl). unfold scheduleNext. cbn.
      assert (Hr' : isRunning match metric x with
                              | Some n => set_previousSoldCount (Some n) (monitor w)
                              | None => monitor w
                              end = true) by now destruct (metric x).
      rewrite Hr'. cbn. rewrite length_app. cbn. lia.
    + rewrite (resume_unknown w c x Hl). now apply Hw.
Qed.

Lemma busy_run (es : list Event) (w : World) :
  (isRunning (monitor w) = true -> (1 <= pending w)%nat) ->
  isRunning (monitor (run w es)) = true -> (1 <= pending (run w es))%nat.
Proof.
  revert w. induction es as [| e es IH]; intros w Hw; [exact Hw |].
  change (run w (e :: es)) with (run (step w e) es).
  apply IH. now apply busy_step.
Qed.

(** ** The event loop over whole histories *)

(** X1. In a history of the process in which [start()] is never called on a
    stopped monitor with a check still suspended, the monitor has at most one
    thing pending, an armed timer or a suspended check; an armed timer is the
    one held in [timeoutId] and the monitor is running; a stopped monitor has
    no armed timer; a running monitor has exactly one thing pending. *)
Theorem orderly_history_has_one_chain :
  forall (minutes : JS.Number) (es : list Event),
    orderly (boot minutes) es = true ->
    let w := run (boot minutes) es in
    (pending w <= 1)%nat
    /\ (forall t, In t (timers w) ->
          isRunning (monitor w) = true /\ timeoutId (monitor w) = Some t)
    /\ (isRunning (monitor w) = false -> timers w = [])
    /\ (isRunning (monitor w) = true -> pending w = 1%nat).
Proof.
  intros minutes es Ho w.
  pose proof (orderly_tidy es _ (tidy_boot minutes) Ho) as [Hlen Hin].
  fold w in Hlen, Hin. split; [exact Hlen |]. split; [exact Hin |]. split.
  - intros Hoff. destruct (timers w) as [| t l] eqn:Ht; [reflexivity |].
    destruct (Hin t (or_introl eq_refl)) as [Hon _]. congruence.
  - intros Hon. unfold pending in *.
    assert (Hb : (1 <= pending w)%nat).
    { apply busy_run; [discriminate | exact Hon]. }
    unfold pending in Hb. lia.
Qed.


Lemma process_run (es : list Event) (w : World) :
  process w = Alive ->
  process (run w es) = if forallb not_signal es then Alive else Exited 0.
Proof.
  revert w. induction es as [| e es IH]; intros w Hp; [exact Hp |].
  change (run w (e :: es)) with (run (step w e) es).
  pose proof (step_process w e) as Hs. rewrite Hp in Hs.
  destruct e; cbn [forallb not_signal andb]; try (now apply IH).
  now rewrite (run_exited es _ 0%Z Hs).
Qed.

(** X3. Nothing but a termination signal ends the process: after any
    history it is alive when no SIGINT or SIGTERM was delivered, whatever the
    exchanges did, and it has exited with status 0 otherwise. *)
Theorem only_a_signal_ends_the_process :
  forall (minutes : JS.Number) (es : list Event),
    process (run (boot minutes) es)
    = if forallb not_signal es then Alive else Exited 0.
Proof. intros minutes es. now apply process_run. Qed.

(** X4. A check that settles on a stopped monitor (because [stop()] was
    called while it was waiting for the response) still prints its line and
    still stores its count when it succeeds, but arms no timer: the armed
    timers, [timeoutId] and the next handle are as before. *)
Theorem settle_after_stop_arms_nothing :
  forall (w : World) (c : nat) (ts : string) (x : Exchange),
    process w = Alive ->
    isRunning (monitor w) = false ->
    lookup c (inflight w) = Some ts ->
    let w' := step w (CheckSettles c x) in
    timers w' = timers w
    /\ nextTimeout w' = nextTimeout w
    /\ timeoutId (monitor w') = timeoutId (monitor w)
    /\ isRunning (monitor w') = false
    /\ inflight w' = forget c (inflight w)
    /\ previousSoldCount (monitor w')
       = stored_after (previousSoldCount (monitor w)) x
    /\ console w'
       = console w ++ [result_line ts (previousSoldCount (monitor w)) x].
Proof.
  intros w c ts x Hp Hoff Hl w'.
  assert (Hw' : w' = resume c x w) by (unfold w', step; now rewrite Hp).
  rewrite Hw', (resume_explicit w c ts x Hl).
  unfold scheduleNext, stored_after. cbn.
  assert (Hoff' : isRunning match metric x with
                            | Some n => set_previousSoldCount (Some n) (monitor w)
                            | None => monitor w
                            end = false) by now destruct (metric x).
  rewrite Hoff'. cbn. destruct (metric x); now repeat split.
Qed.

(** X5. The first cycle of a fresh monitor.  [start()] prints the banner and
    the opening line of the first check, leaves that check suspended and arms
    no timer.  When the check settles, whatever the exchange, its line is
    printed, the count is stored if there is one, and the first timer is
    armed and held in [timeoutId]. *)
Theorem first_cycle_of_a_fresh_monitor :
  forall (minutes : JS.Number) (now : string) (x : Exchange),
    let w1 := step (boot minutes) (CallStart now) in
    let w2 := step w1 (CheckSettles 0 x) in
    (isRunning (monitor w1) = true
     /\ timers w1 = []
     /\ inflight w1 = [(0%nat, now)]
     /\ console w1 = banner (new_SeatMonitor minutes) ++ [checking_line now])
    /\ (isRunning (monitor w2) = true
        /\ timers w2 = [0%nat]
        /\ timeoutId (monitor w2) = Some 0%nat
        /\ inflight w2 = []
        /\ previousSoldCount (monitor w2) = metric x
        /\ console w2 = console w1 ++ [result_line now None x]).
Proof.
  intros minutes now x w1 w2. split; [now repeat split |].
  assert (Hw2 : w2 = resume 0 x w1) by reflexivity.
  rewrite Hw2, (resume_explicit w1 0 now x eq_refl).
  unfold scheduleNext. cbn. destruct (metric x); now repeat split.
Qed.

(** X6. [isRunning] goes from false to true only in [start()], and from true
    to false only in [stop()], called directly or by a signal handler; a
    timer that fires and a check that settles never change it. *)
Theorem isRunning_changes_only_in_start_and_stop :
  forall (w : World) (e : Event),
    (isRunning (monitor w) = false -> isRunning (monitor (step w e)) = true ->
     exists now, e = CallStart now)
    /\ (isRunning (monitor w) = true -> isRunning (monitor (step w e)) = false ->
        e = CallStop \/ e = Signal)
    /\ (forall t now, e = TimerFires t now ->
          isRunning (monitor (step w e)) = isRunning (monitor w))
    /\ (forall c x, e = CheckSettles c x ->
          isRunning (monitor (step w e)) = isRunning (monitor w)).
Proof.
  intros w e. rewrite step_isRunning. repeat split.
  - intros Hoff Hon. destruct (process w), e; try congruence. now exists now.
  - intros Hon Hoff. destruct (process w), e; try congruence; auto.
  - intros t now ->. now destruct (process w).
  - intros c x ->. now destruct (process w).
Qed.

(** X7. The interval is fixed when the monitor is constructed: no event
    changes [intervalMinutes] or [intervalMs], and the delay of every timer is
    the constructor's argument times 60 times 1000. *)
Theorem interval_is_fixed_at_construction :
  forall (minutes : JS.Number) (es : list Event),
    intervalMinutes (monitor (run (boot minutes) es)) = minutes
    /\ intervalMs (monitor (run (boot minutes) es))
       = JS.times (JS.times minutes 60) 1000.
Proof.
  intros minutes es.
  assert (H : forall w,
             intervalMinutes (monitor (run w es)) = intervalMinutes (monitor w)
             /\ intervalMs (monitor (run w es)) = intervalMs (monitor w)).
  { induction es as [| e es IH]; intros w; [now split |].
    change (run w (e :: es)) with (run (step w e) es).
    destruct (IH (step w e)) as [H1 H2]. destruct (step_interval w e) as [H3 H4].
    split; congruence. }
  apply (H (boot minutes)).
Qed.

(** X8. A termination signal on a live process calls [stop()] and exits with
    status 0: the shutdown notice is printed exactly when the monitor was
    running, the monitor is left stopped, and no later event does anything. *)
Theorem signal_stops_and_exits_0 :
  forall w : World,
    process w = Alive ->
    let w' := step w Signal in
    process w' = Exited 0
    /\ isRunning (monitor w') = false
    /\ console w'
       = console w ++ (if isRunning (monitor w) then [stopped_notice] else [])
    /\ forall es : list Event, run w' es = w'.
Proof.
  intros w Hp w'.
  assert (Hw' : w' = with_process (Exited 0) (stop w))
    by (unfold w', step, signal; now rewrite Hp).
  rewrite Hw'. repeat split.
  - apply stop_isRunning.
  - cbn. destruct (isRunning (monitor w)) eqn:Hr.
    + now rewrite (stop_running w Hr).
    + rewrite (stop_not_running w Hr). now rewrite app_nil_r.
  - intros es. now apply (run_exited es _ 0%Z).
Qed.

(** ** The command line *)

(** A prefix that the loop gets through can be cut off: the loop goes on
    from the interval it has reached. *)
Lemma scan_app (n : nat) :
  forall (pre rest : list string) (minutes reached : JS.Number),
    (List.length pre <= n)%nat ->
    scan_arguments pre minutes = Returns reached ->
    scan_arguments (pre ++ rest) minutes = scan_arguments rest reached.
Proof.
  induction n as [| n IH]; intros pre rest minutes reached Hlen Hpre.
  - destruct pre; [| cbn in Hlen; lia]. cbn in Hpre. now injection Hpre as ->.
  - destruct pre as [| a pre]; [cbn in Hpre; now injection Hpre as -> |].
    cbn [app scan_arguments] in *.
    destruct (is_help a); [discriminate |].
    destruct (is_interval a).
    + destruct pre as [| v pre]; [discriminate |]. cbn [app].
      destruct ((v =? "")%string || JS.isNaN v); [discriminate |].
      destruct (JS.le0 (JS.parseFloat v)); [discriminate |].
      apply IH; [cbn in Hlen; lia | exact Hpre].
    + apply IH; [cbn in Hlen; lia | exact Hpre].
Qed.

Lemma scan_outcomes (n : nat) :
  forall (args : list string) (minutes : JS.Number),
    (List.length args <= n)%nat ->
    JS.le0 minutes = false ->
    match scan_arguments args minutes with
    | Returns reached =>
        JS.le0 reached = false
        /\ (reached = minutes
            \/ exists v, In v args /\ JS.isNaN v = false
                         /\ reached = JS.parseFloat v)
    | ProcessExit code out =>
        (code = 0%Z /\ out = [ConsoleLog helpText])
        \/ (code = 1%Z /\ (out = not_numeric \/ out = not_positive))
    end.
Proof.
  induction n as [| n IH]; intros args minutes Hlen Hpos.
  - destruct args; [| cbn in Hlen; lia]. cbn. auto.
  - destruct args as [| a args]; [cbn; auto |].
    cbn [scan_arguments].
    destruct (is_help a); [now left |].
    destruct (is_interval a).
    + destruct args as [| v args]; [right; auto |].
      destruct ((v =? "")%string || JS.isNaN v) eqn:Hv; [right; auto |].
      destruct (JS.le0 (JS.parseFloat v)) eqn:Hle; [right; auto |].
      apply orb_false_iff in Hv as [_ Hnan].
      specialize (IH args (JS.parseFloat v) ltac:(cbn in Hlen; lia) Hle).
      destruct (scan_arguments args (JS.parseFloat v)) as [reached | code out];
        [| exact IH].
      destruct IH as [Hr [-> | (u & Hu & Hun & ->)]]; split; auto; right.
      * exists v. cbn. auto.
      * exists u. cbn. auto.
    + specialize (IH args minutes ltac:(cbn in Hlen; lia) Hpos).
      destruct (scan_arguments args minutes) as [reached | code out];
        [| exact IH].
      destruct IH as [Hr [-> | (u & Hu & Hun & ->)]]; split; auto; right.
      exists u. cbn. auto.
Qed.

(** X9. Arguments that are neither a help flag nor an interval flag are
    ignored: a command line made of such arguments only, the empty one
    included, gives the default interval of 5 minutes, and putting such
    arguments in front of any command line does not change its outcome. *)
Theorem unrecognised_arguments_are_ignored :
  forall junk : list string,
    forallb unrecognised junk = true ->
    parseArguments junk = Returns DEFAULT_INTERVAL
    /\ forall args : list string,
         parseArguments (junk ++ args) = parseArguments args.
Proof.
  intros junk Hj.
  assert (H : forall m, scan_arguments junk m = Returns m).
  { induction junk as [| a junk IH]; intros m; [reflexivity |].
    cbn [forallb] in Hj. apply andb_true_iff in Hj as [Ha Hj].
    unfold unrecognised in Ha. apply andb_true_iff in Ha as [Hh Hi].
    apply negb_true_iff in Hh, Hi. cbn [scan_arguments]. rewrite Hh, Hi.
    now apply IH. }
  split; [apply H |].
  intros args. unfold parseArguments.
  apply (scan_app (List.length junk)); [lia | apply H].
Qed.

(** X10. When the loop gets through the arguments before a help flag
    ([--help] or [-h]), the process prints the help text on the standard
    stream and exits with status 0, whatever follows the flag; [main] builds
    no monitor, so no request is made. *)
Theorem help_exits_0 :
  forall (pre : list string) (flag : string) (rest : list string)
         (reached : JS.Number) (now : string),
    parseArguments pre = Returns reached ->
    is_help flag = true ->
    parseArguments (pre ++ flag :: rest) = ProcessExit 0 [ConsoleLog helpText]
    /\ main (pre ++ flag :: rest) now = Halted 0 [ConsoleLog helpText].
Proof.
  intros pre flag rest reached now Hpre Hf.
  assert (H : parseArguments (pre ++ flag :: rest)
              = ProcessExit 0 [ConsoleLog helpText]).
  { unfold parseArguments in *.
    rewrite (scan_app (List.length pre) pre (flag :: rest) _ reached (le_n _) Hpre).
    cbn [scan_arguments]. now rewrite Hf. }
  split; [exact H |]. unfold main. now rewrite H.
Qed.

(** X11. Of several interval flags the last one counts.  When the loop gets
    through a command line, the arguments after it are scanned from the
    interval reached so far; an interval flag added at the end with a value
    that is not refused makes that value, parsed by [parseFloat], the
    interval, whatever interval came before. *)
Theorem last_interval_flag_wins :
  forall (pre : list string) (reached : JS.Number),
    parseArguments pre = Returns reached ->
    (forall rest : list string,
        parseArguments (pre ++ rest) = scan_arguments rest reached)
    /\ forall flag value : string,
         is_interval flag = true ->
         refused [value] = false ->
         parseArguments (pre ++ [flag; value]) = Returns (JS.parseFloat value).
Proof.
  intros pre reached Hpre.
  assert (H : forall rest,
             parseArguments (pre ++ rest) = scan_arguments rest reached).
  { intros rest. unfold parseArguments in *.
    now apply (scan_app (List.length pre)). }
  split; [exact H |].
  intros flag value Hf Hv. rewrite H.
  destruct (interval_flag_facts flag Hf) as [Hh _].
  cbn [scan_arguments refused] in *. rewrite Hh, Hf.
  apply orb_false_iff in Hv as [Hv Hle]. now rewrite Hv, Hle.
Qed.

(** X12. The outcomes of [parseArguments].  It exits with status 0 after
    printing the help text on the standard stream, or with status 1 after
    printing one of its two messages on the error stream, or it returns an
    interval.  A returned interval is never [<= 0]; it is the default, or the
    [parseFloat] of an argument that [isNaN] takes for a number. *)
Theorem parseArguments_outcomes :
  forall args : list string,
    match parseArguments args with
    | Returns minutes =>
        JS.le0 minutes = false
        /\ (minutes = DEFAULT_INTERVAL
            \/ exists v, In v args /\ JS.isNaN v = false
                         /\ minutes = JS.parseFloat v)
    | ProcessExit code out =>
        (code = 0%Z /\ out = [ConsoleLog helpText])
        \/ (code = 1%Z
            /\ (out = [ConsoleError "Error: --interval requires a numeric value (minutes)"]
                \/ out = [ConsoleError "Error: Interval must be greater than 0"]))
    end.
Proof.
  intros args.
  exact (scan_outcomes (List.length args) args DEFAULT_INTERVAL (le_n _) eq_refl).
Qed.

(** X13. What [main] leaves behind.  Either the process has ended in
    [parseArguments], with status 0 or 1 and no monitor, or a monitor was
    built with the parsed interval and started: it is running, its first
    check is suspended, no timer is armed, no count is stored, and the
    console holds the banner followed by the opening line of the check. *)
Theorem main_halts_or_starts_one_check :
  forall (args : list string) (now : string),
    match main args now with
    | Halted code out =>
        parseArguments args = ProcessExit code out /\ (code = 0%Z \/ code = 1%Z)
    | Monitoring w =>
        exists minutes,
          parseArguments args = Returns minutes
          /\ JS.le0 minutes = false
          /\ intervalMinutes (monitor w) = minutes
          /\ intervalMs (monitor w) = JS.times (JS.times minutes 60) 1000
          /\ isRunning (monitor w) = true
          /\ previousSoldCount (monitor w) = None
          /\ inflight w = [(0%nat, now)]
          /\ timers w = []
          /\ process w = Alive
          /\ console w = banner (new_SeatMonitor minutes) ++ [checking_line now]
    end.
Proof.
  intros args now. unfold main.
  pose proof (scan_outcomes (List.length args) args DEFAULT_INTERVAL
                (le_n _) eq_refl) as H.
  fold (parseArguments args) in H.
  destruct (parseArguments args) as [minutes | code out].
  - exists minutes. destruct H as [Hle _]. now repeat split.
  - split; [reflexivity |]. destruct H as [[-> _] | [-> _]]; auto.
Qed.

(** ** The further statements at concrete inputs *)

Lemma orderly_history_has_one_chain_witness :
  let w := run (boot DEFAULT_INTERVAL)
               [CallStart "T0"; CheckSettles 0 (found 3); CallStop;
                CallStart "T1"; CheckSettles 1 RequestTimeout;
                TimerFires 1 "T2"] in
  isRunning (monitor w) = true /\ pending w = 1%nat.
Proof.
  intros w.
  destruct (orderly_history_has_one_chain DEFAULT_INTERVAL
              [CallStart "T0"; CheckSettles 0 (found 3); CallStop;
               CallStart "T1"; CheckSettles 1 RequestTimeout;
               TimerFires 1 "T2"] eq_refl) as (_ & _ & _ & Hone).
  split; [reflexivity | exact (Hone eq_refl)].
Defined.


Lemma settle_after_stop_arms_nothing_witness :
  let w := run (boot DEFAULT_INTERVAL) [CallStart "T0"; CallStop] in
  let w' := step w (CheckSettles 0 (found 3)) in
  timers w' = [] /\ previousSoldCount (monitor w') = Some 3%Z
  /\ console w' = console w ++ [ConsoleLog "[T0] Sold seats: 3"].
Proof.
  intros w w'.
  destruct (settle_after_stop_arms_nothing w 0 "T0" (found 3)
              eq_refl eq_refl eq_refl) as (Ht & _ & _ & _ & _ & Hs & Hc).
  split; [exact Ht |]. split; [exact Hs | exact Hc].
Defined.

Lemma isRunning_changes_only_in_start_and_stop_witness :
  let w := run (boot DEFAULT_INTERVAL) [CallStart "T0"; CheckSettles 0 (found 3)] in
  isRunning (monitor w) = true
  /\ isRunning (monitor (step w CallStop)) = false
  /\ (CallStop = CallStop \/ CallStop = Signal).
Proof.
  intros w. split; [reflexivity |]. split; [reflexivity |].
  exact (proj1 (proj2 (isRunning_changes_only_in_start_and_stop w CallStop))
               eq_refl eq_refl).
Defined.

Lemma signal_stops_and_exits_0_witness :
  let w := run (boot DEFAULT_INTERVAL) [CallStart "T0"; CheckSettles 0 (found 3)] in
  process (step w Signal) = Exited 0
  /\ console (step w Signal) = console w ++ [stopped_notice]
  /\ run (step w Signal) [TimerFires 0 "T1"; CallStart "T2"] = step w Signal.
Proof.
  intros w.
  destruct (signal_stops_and_exits_0 w eq_refl) as (Hp & _ & Hc & Hinert).
  split; [exact Hp |]. split; [exact Hc |].
  exact (Hinert [TimerFires 0 "T1"; CallStart "T2"]).
Defined.

Lemma unrecognised_arguments_are_ignored_witness :
  parseArguments ["--verbose"; "5"] = Returns DEFAULT_INTERVAL
  /\ parseArguments (["--verbose"; "5"] ++ ["-i"; "2"]) = parseArguments ["-i"; "2"].
Proof.
  destruct (unrecognised_arguments_are_ignored ["--verbose"; "5"] eq_refl)
    as [Hdefault Hfront].
  split; [exact Hdefault | exact (Hfront ["-i"; "2"])].
Defined.

Lemma help_exits_0_witness :
  parseArguments (["-i"; "2"; "extra"] ++ "-h" :: ["-i"; "abc"])
  = ProcessExit 0 [ConsoleLog helpText]
  /\ main (["-i"; "2"; "extra"] ++ "-h" :: ["-i"; "abc"]) "T0"
     = Halted 0 [ConsoleLog helpText].
Proof.
  exact (help_exits_0 ["-i"; "2"; "extra"] "-h" ["-i"; "abc"]
           (JS.Decimal false 2 0) "T0" eq_refl eq_refl).
Defined.

Lemma last_interval_flag_wins_witness :
  parseArguments (["-i"; "2"; "extra"] ++ ["--interval"; "0.5"])
  = Returns (JS.parseFloat "0.5").
Proof.
  exact (proj2 (last_interval_flag_wins ["-i"; "2"; "extra"]
                  (JS.Decimal false 2 0) eq_refl)
               "--interval" "0.5" eq_refl eq_refl).
Defined.

(** * Where the program departs from its specification *)

(** ** A response that never ends *)

(** While no check is lost, the runtime is the event loop. *)
Lemma happens_delivers (es : list Event) (w : World) :
  happens (mkRuntime w []) (map Delivers es) = mkRuntime (run w es) [].
Proof.
  revert w. induction es as [| e es IH]; intros w; [reflexivity |].
  cbn [map]. change (run w (e :: es)) with (run (step w e) es).
  rewrite <- IH. unfold happens. cbn [fold_left]. f_equal.
  unfold happen, step. cbn [world lost]. destruct (process w); [| reflexivity].
  destruct e; try reflexivity.
  unfold transfer_ends, is_lost. cbn [world lost existsb].
  destruct (lookup c (inflight w)) eqn:Hl; [reflexivity |].
  now rewrite (resume_unknown w c x Hl).
Qed.

Lemma stalled_happen (minutes : JS.Number) (now : string) (h : Happening) :
  undisturbed h = true ->
  happen (mkRuntime (start now (boot minutes)) [0%nat]) h
  = mkRuntime (start now (boot minutes)) [0%nat].
Proof.
  intros Hh. destruct h as [e | c t]; [destruct e |]; try discriminate.
  - reflexivity.
  - destruct c; reflexivity.
  - destruct c; reflexivity.
Qed.

(** C5, at the input where the program departs from it.  A fresh monitor is
    started and the response of its first check is cut off after the headers,
    before the body ends.  No listener of [fetchData] runs: the promise stays
    pending, [checkSoldSeats] never returns, no error line is printed and no
    timer is armed.  From then on nothing that can still happen (timers,
    responses of any check, ended exchanges) changes anything: the monitor
    says it is running and the polling loop is dead. *)
Theorem closed_response_stalls_the_loop :
  forall (minutes : JS.Number) (now : string) (hs : list Happening),
    let r := happens (launch minutes)
                     [Delivers (CallStart now); Ends 0 ClosedMidBody] in
    forallb undisturbed hs = true ->
    fetchData_fate ClosedMidBody = PromisePending
    /\ process (world r) = Alive
    /\ isRunning (monitor (world r)) = true
    /\ inflight (world r) = [(0%nat, now)]
    /\ timers (world r) = []
    /\ nextCheck (world r) = 1%nat
    /\ console (world r) = banner (new_SeatMonitor minutes) ++ [checking_line now]
    /\ happens r hs = r.
Proof.
  intros minutes now hs r Hhs.
  assert (Hr : r = mkRuntime (start now (boot minutes)) [0%nat]) by reflexivity.
  repeat split. rewrite Hr. clear r Hr.
  induction hs as [| h hs IH]; [reflexivity |].
  cbn [forallb] in Hhs. apply andb_true_iff in Hhs as [Hh Hhs].
  unfold happens. cbn [fold_left]. rewrite (stalled_happen minutes now h Hh).
  now apply IH.
Qed.

(** The other response that settles nothing: a body longer than the longest
    string ends the process, whatever the monitor was doing. *)
Lemma body_overflow_ends_the_process (minutes : JS.Number) (now : string) :
  let r := happens (launch minutes)
                   [Delivers (CallStart now); Ends 0 BodyTooLong] in
  process (world r) = Exited 1 /\ console (world r)
                                  = banner (new_SeatMonitor minutes)
                                    ++ [checking_line now].
Proof. now split. Qed.

Lemma closed_response_stalls_the_loop_witness :
  let r := happens (launch DEFAULT_INTERVAL)
                   [Delivers (CallStart "T0"); Ends 0 ClosedMidBody] in
  timers (world r) = []
  /\ happens r [Delivers (TimerFires 0 "T1");
                Delivers (CheckSettles 0 RequestTimeout);
                Ends 0 (Settles (found 3));
                Delivers (CheckSettles 1 (found 3))] = r.
Proof.
  intros r.
  destruct (closed_response_stalls_the_loop DEFAULT_INTERVAL "T0"
              [Delivers (TimerFires 0 "T1");
               Delivers (CheckSettles 0 RequestTimeout);
               Ends 0 (Settles (found 3));
               Delivers (CheckSettles 1 (found 3))] eq_refl)
    as (_ & _ & _ & _ & Ht & _ & _ & Hstuck).
  split; [exact Ht | exact Hstuck].
Defined.

(** ** A timer that [stop()] cannot reach *)

(** C6, at the input where the program departs from it.  After [start()],
    [stop()] during the first check, [start()] again and both checks settled,
    timers 0 and 1 are armed and [timeoutId] holds 1.  [stop()] now clears
    timer 1 only: timer 0 stays armed on a stopped monitor, and when it fires
    a check runs although [start()] was not called again.  The same happens
    when timer 1 has fired first: one timer is armed, [timeoutId] holds the
    handle that fired, [stop()] clears nothing, and timer 0 runs a check. *)
Theorem stop_misses_the_leaked_timer :
  let w5 := run (boot DEFAULT_INTERVAL)
                [CallStart "T0"; CallStop; CallStart "T1";
                 CheckSettles 0 (found 3); CheckSettles 1 (found 3)] in
  let w6 := step w5 CallStop in
  let w7 := step w6 (TimerFires 0 "T2") in
  let v6 := step w5 (TimerFires 1 "T2") in
  let v7 := step v6 CallStop in
  let v8 := step v7 (TimerFires 0 "T3") in
  (timers w5 = [0; 1]%nat /\ timeoutId (monitor w5) = Some 1%nat)
  /\ (isRunning (monitor w6) = false /\ timers w6 = [0%nat] /\ inflight w6 = [])
  /\ (nextCheck w7 = S (nextCheck w6)
      /\ console w7 = console w6 ++ [checking_line "T2"])
  /\ (timers v6 = [0%nat] /\ timeoutId (monitor v6) = Some 1%nat)
  /\ (isRunning (monitor v7) = false /\ timers v7 = [0%nat])
  /\ (nextCheck v8 = S (nextCheck v7)
      /\ console v8 = console v7 ++ [checking_line "T3"]).
Proof. cbv zeta. repeat split. Qed.

(** ** The delay of the timers *)

(** The delay is the binary64 product: 0.5 minutes are 30000 ms exactly,
    0.03 minutes are 1799.9999999999997726... ms, not 1800. *)
Example interval_ms_is_the_binary64_product :
  intervalMs (new_SeatMonitor (JS.parseFloat "0.5")) = JS.Decimal false 300000 (-1)
  /\ intervalMs (new_SeatMonitor (JS.parseFloat "0.03"))
     = JS.Decimal false 1799999999999999772626324556767940521240234375 (-42)
  /\ JS.binary64 (intervalMs (new_SeatMonitor (JS.parseFloat "0.03")))
     = SpecFloat.S754_finite false 7916483719987199 (-42).
Proof. vm_compute. repeat split. Qed.
